(** * sourceror-driver: the compile/run pipeline of [src/index.ts]

    A shallow embedding of [compile], [read_js_result],
    [stringifySourcerorRuntimeErrorCode] and [run], together with the
    parts of the host platform they call (DataView, TextDecoder,
    promises), and the properties of the pipeline stated over it. *)

From Stdlib Require Import ZArith List Strings.String Strings.Ascii Strings.Byte Bool Lia.
From Stdlib Require Import DecimalString.
From Stdlib Require DecimalFacts DecimalN.
From Stdlib Require Import Floats.SpecFloat.
Import ListNotations.

Local Open Scope Z_scope.

(* ------------------------------------------------------------------ *)
(** ** Host strings *)

(** A JavaScript string is a sequence of UTF-16 code units. *)
Definition jsstring := list Z.

(** A string literal of the source; every literal of [index.ts] is ASCII. *)
Definition lit (s : string) : jsstring :=
  map (fun a => Z.of_N (N_of_ascii a)) (list_ascii_of_string s).

(** [Number::toString] on a non-negative integer below 2^53: its decimal
    digits.  The only number the source turns into a string is a value
    returned by [getUint32]. *)
Definition Number_toString (n : Z) : jsstring :=
  lit (NilZero.string_of_uint (N.to_uint (Z.to_N n))).

(* ------------------------------------------------------------------ *)
(** ** Completions: a host call returns a value or throws *)

(** What host code can throw in this program. *)
Inductive HostFailure : Type :=
| RangeError                        (* DataView / typed array out of bounds *)
| WasmRuntimeError (msg : jsstring)  (* a trap raised by the engine *)
| ExternalFailure (msg : jsstring)   (* a failure of a collaborator *).

Inductive Completion (A : Type) : Type :=
| Normal (a : A)
| Throw (e : HostFailure).
Arguments Normal {A} a.
Arguments Throw {A} e.

Definition cbind {A B} (c : Completion A) (k : A -> Completion B)
  : Completion B :=
  match c with
  | Normal a => k a
  | Throw e => Throw e
  end.

Declare Scope completion_scope.
Delimit Scope completion_scope with completion.
Notation "'try!' x := c 'in' k" := (cbind c (fun x => k))
  (at level 10, x name, c at level 100, k at level 200) : completion_scope.

(* ------------------------------------------------------------------ *)
(** ** Linear memory and DataView *)

(** An ArrayBuffer: its length in bytes and its contents.  [byteAt] is
    only consulted at indices in [0, byteLength). *)
Record Memory : Type := mkMemory {
  byteLength : Z;
  byteAt : Z -> byte;
}.

(** The [n] bytes at offsets [off], [off+1], ... *)
Fixpoint bytes_from (m : Memory) (off : Z) (n : nat) : list byte :=
  match n with
  | O => []
  | S n' => byteAt m off :: bytes_from m (off + 1) n'
  end.

(** Little-endian value of a byte sequence. *)
Fixpoint le_value (bs : list byte) : Z :=
  match bs with
  | [] => 0
  | b :: bs' => Z.lor (Z.of_N (Byte.to_N b)) (Z.shiftl (le_value bs') 8)
  end.

(** [DataView.prototype.getUint32(off, true)]: RangeError unless the four
    bytes lie inside the view. *)
Definition getUint32 (m : Memory) (off : Z) : Completion Z :=
  if (off + 4 >? byteLength m) then Throw RangeError
  else Normal (le_value (bytes_from m off 4)).

(** IEEE-754 binary64 value of a 64-bit pattern.  All NaN patterns are
    the one host NaN. *)
Definition float64_of_bits (w : Z) : spec_float :=
  let s := Z.testbit w 63 in
  let e := Z.land (Z.shiftr w 52) 2047 in
  let f := Z.land w (Z.ones 52) in
  if e =? 0 then
    match f with
    | Zpos p => S754_finite s p (-1074)
    | _ => S754_zero s
    end
  else if e =? 2047 then
    (if f =? 0 then S754_infinity s else S754_nan)
  else
    match Z.lor f (Z.shiftl 1 52) with
    | Zpos p => S754_finite s p (e - 1075)
    | _ => S754_nan
    end.

(** [DataView.prototype.getFloat64(off, true)]. *)
Definition getFloat64 (m : Memory) (off : Z) : Completion spec_float :=
  if (off + 8 >? byteLength m) then Throw RangeError
  else Normal (float64_of_bits (le_value (bytes_from m off 8))).

(** [new Uint8Array(buffer, byteOffset, length)] with a length given:
    RangeError when the end of the view lies outside the buffer;
    otherwise the viewed bytes. *)
Definition Uint8Array_view (m : Memory) (byteOffset len : Z)
  : Completion (list byte) :=
  if (byteOffset + len >? byteLength m) then Throw RangeError
  else Normal (bytes_from m byteOffset (Z.to_nat len)).

(* ------------------------------------------------------------------ *)
(** ** TextDecoder *)

Module TextDecoder.

(** State of the UTF-8 decoder of the Encoding standard. *)
Record state : Type := mkState {
  code_point : Z;
  bytes_seen : Z;
  bytes_needed : Z;
  lower : Z;
  upper : Z;
}.

Definition start : state := mkState 0 0 0 128 191.

Definition replacement : Z := 65533.

(** A byte met while no sequence is open. *)
Definition lead (b : Z) : list Z * state :=
  if b <=? 127 then ([b], start)
  else if (194 <=? b) && (b <=? 223)
    then ([], mkState (Z.land b 31) 0 1 128 191)
  else if (224 <=? b) && (b <=? 239)
    then ([], mkState (Z.land b 15) 0 2
                      (if b =? 224 then 160 else 128)
                      (if b =? 237 then 159 else 191))
  else if (240 <=? b) && (b <=? 244)
    then ([], mkState (Z.land b 7) 0 3
                      (if b =? 240 then 144 else 128)
                      (if b =? 244 then 143 else 191))
  else ([replacement], start).

(** One byte through the decoder: the code points emitted and the next
    state.  A byte that breaks an open sequence emits the replacement
    character and is then read again as a lead byte. *)
Definition step (st : state) (b : Z) : list Z * state :=
  if bytes_needed st =? 0 then lead b
  else if (b <? lower st) || (upper st <? b) then
    let (out, st') := lead b in (replacement :: out, st')
  else
    let cp := Z.lor (Z.shiftl (code_point st) 6) (Z.land b 63) in
    if bytes_seen st + 1 =? bytes_needed st then ([cp], start)
    else ([], mkState cp (bytes_seen st + 1) (bytes_needed st) 128 191).

Fixpoint run (st : state) (bs : list byte) : list Z :=
  match bs with
  | [] => if bytes_needed st =? 0 then [] else [replacement]
  | b :: bs' =>
      let (out, st') := step st (Z.of_N (Byte.to_N b)) in
      out ++ run st' bs'
  end.

(** A scalar value as UTF-16 code units. *)
Definition utf16 (cp : Z) : jsstring :=
  if cp <? 65536 then [cp]
  else [55296 + Z.shiftr (cp - 65536) 10; 56320 + Z.land (cp - 65536) 1023].

(** A leading byte order mark is dropped ([ignoreBOM] is false). *)
Definition strip_bom (cps : list Z) : list Z :=
  match cps with
  | c :: rest => if c =? 65279 then rest else cps
  | [] => []
  end.

(** [new TextDecoder().decode(bytes)]: UTF-8, not fatal. *)
Definition decode (bs : list byte) : jsstring :=
  flat_map utf16 (strip_bom (run start bs)).

End TextDecoder.

(* ------------------------------------------------------------------ *)
(** ** Host values *)

(** The values [read_js_result] can return. *)
Inductive JSValue : Type :=
| VUndefined
| VNumber (x : spec_float)
| VBoolean (b : bool)
| VString (s : jsstring).

(* ------------------------------------------------------------------ *)
(** ** read_js_result *)

Definition tag_offset : Z := Z.shiftl 1 20 - 12.
Definition data_offset : Z := Z.shiftl 1 20 - 8.

Local Open Scope completion_scope.

Definition read_js_result (linear_memory : Memory) : Completion JSValue :=
  let mem := linear_memory in
  try! tag := getUint32 mem tag_offset in
  match tag with
  | 0 => Normal (VString (lit "(unassigned variable was returned)"))
  | 1 => Normal VUndefined
  | 2 => try! x := getFloat64 mem data_offset in Normal (VNumber x)
  | 3 => try! w := getUint32 mem data_offset in
         Normal (VBoolean (negb (w =? 0)))
  | 4 => try! ptr := getUint32 mem data_offset in
         try! len := getUint32 mem ptr in
         try! view := Uint8Array_view linear_memory (ptr + 4) len in
         Normal (VString (TextDecoder.decode view))
  | 5 => Normal (VString (lit "(function was returned)"))
  | _ => Normal (VString (lit "(struct or invalid type (" ++ Number_toString tag
                          ++ lit ") was returned)"))
  end.

(** [stringifySourcerorRuntimeErrorCode]. *)
Definition stringifySourcerorRuntimeErrorCode (code : Z)
  : jsstring * jsstring :=
  match code with
  | 0 => (lit "General runtime error", lit "")
  | 1 => (lit "Out of memory",
          lit "Strings and objects are allocated on the heap.  You have exhausted the available heap space.  Try recompiling your program with increased heap space.")
  | 16 => (lit "General runtime type error", lit "")
  | 18 => (lit "Unary operator called with incorrect parameter type", lit "")
  | 19 => (lit "Binary operator called with incorrect parameter type", lit "")
  | 22 => (lit "Function call operator applied on a non-function", lit "")
  | 23 => (lit "If statement has a non-boolean condition", lit "")
  | _ => (lit "Unknown runtime error",
          lit "This is probably a bug in Sourceror; please report it.")
  end.

(* ------------------------------------------------------------------ *)
(** ** Diagnostics (js-slang's [SourceError]) *)

Inductive ErrorType : Type := SYNTAX | RUNTIME.
Inductive ErrorSeverity : Type := WARNING | ERROR.

Record Position : Type := mkPosition { line : Z; column : Z }.

(** [source] is always [null] in this program and is left out. *)
Record SourceLocation : Type := mkLocation { start : Position; end_ : Position }.

(** [explain] and [elaborate] are thunks that return a captured
    constant; the record holds what they return. *)
Record SourceError : Type := mkSourceError {
  type : ErrorType;
  severity : ErrorSeverity;
  location : SourceLocation;
  explain : jsstring;
  elaborate : jsstring;
}.

(* ------------------------------------------------------------------ *)
(** ** Promises, errors and the world outside *)

(** What a promise of this program can be rejected with: an error of
    one of the two classes of [index.ts], a failure of the host, or the
    object [propagationToken] itself. *)
Inductive JSError : Type :=
| CompileError (message : jsstring)
| RuntimeError (message : jsstring)
| HostError (e : HostFailure)
| TheToken.

(** A settled promise. *)
Inductive Settled (E A : Type) : Type :=
| Fulfilled (a : A)
| Rejected (reason : E).
Arguments Fulfilled {E A} a.
Arguments Rejected {E A} reason.

(** A call of a collaborator: it returns, or it throws there and then. *)
Inductive CallResult (A : Type) : Type :=
| Returns (a : A)
| Throws (e : HostFailure).
Arguments Returns {A} a.
Arguments Throws {A} e.

(** Calls that leave the program, in the order they are made. *)
Inductive HostCall : Type :=
| Call_create_context (handle : Z)
| Call_Sourceror_compile (handle : Z) (es_str aux : jsstring)
| Call_WebAssembly_compile (wasm_binary : list byte)
| Call_destroy_context (handle : Z)
| Call_instantiate
| Call_main
| Call_read_js_result.

(** [context.errors], and the calls made so far. *)
Record World : Type := mkWorld {
  errors : list SourceError;
  calls : list HostCall;
}.

(** A small state monad. *)
Definition State (S A : Type) : Type := S -> A * S.

Definition ret {S A} (a : A) : State S A := fun s => (a, s).

Definition bind {S A B} (m : State S A) (k : A -> State S B) : State S B :=
  fun s => let (a, s') := m s in k a s'.

Declare Scope state_scope.
Delimit Scope state_scope with state.
Notation "x <- m ;; k" := (bind m (fun x => k))
  (at level 61, m at next level, right associativity) : state_scope.
Notation "m ;; k" := (bind m (fun _ => k))
  (at level 61, right associativity) : state_scope.

Local Open Scope state_scope.

Definition when {S} (c : bool) (m : State S unit) : State S unit :=
  if c then m else ret tt.

Fixpoint for_each {S A} (f : A -> State S unit) (l : list A) : State S unit :=
  match l with
  | [] => ret tt
  | a :: l' => f a ;; for_each f l'
  end.

(** [p.then(onFulfilled)], [p.then(onFulfilled, onRejected)] and
    [p.catch(onRejected)] on a settled promise.  A handler's result is the
    promise it makes: [Fulfilled x] for [return x], [Rejected e] for
    [return Promise.reject(e)]. *)
Definition then_ {S E A B} (p : Settled E A)
    (onFulfilled : A -> State S (Settled E B)) : State S (Settled E B) :=
  match p with
  | Fulfilled a => onFulfilled a
  | Rejected e => ret (Rejected e)
  end.

Definition then2 {S E A F B} (p : Settled E A)
    (onFulfilled : A -> State S (Settled F B))
    (onRejected : E -> State S (Settled F B)) : State S (Settled F B) :=
  match p with
  | Fulfilled a => onFulfilled a
  | Rejected e => onRejected e
  end.

Definition catch_ {S E F A} (p : Settled E A)
    (onRejected : E -> State S (Settled F A)) : State S (Settled F A) :=
  match p with
  | Fulfilled a => ret (Fulfilled a)
  | Rejected e => onRejected e
  end.

(** [context.errors.push(d)]. *)
Definition push (d : SourceError) (w : World) : World :=
  mkWorld (errors w ++ [d]) (calls w).

Definition record_call (c : HostCall) (w : World) : World :=
  mkWorld (errors w) (calls w ++ [c]).

(* ------------------------------------------------------------------ *)
(** ** Modules and instances *)

(** A function of a module, as the engine executes it: stores and loads
    on the linear memory, calls of the import [core.error], a block whose
    exceptions the module catches itself ([try ... catch_all ... end]), a
    trap, or a normal return.  [k] is what follows in the program. *)
Inductive WasmCode : Type :=
| Ret
| Store (addr : Z) (b : byte) (k : WasmCode)
| Load (addr : Z) (k : byte -> WasmCode)
| CallError (code detail file line column : Z) (k : WasmCode)
| TryCatchAll (body handler : WasmCode) (k : WasmCode)
| Trap (msg : jsstring).

(** A module ready to be instantiated, and the instance it becomes: the
    linear memory, the start function that instantiation runs ([Ret] for
    a module without one), and the export [main]. *)
Record Instance : Type := mkInstance {
  linear_memory : Memory;
  start_function : WasmCode;
  main : WasmCode;
}.

(* ------------------------------------------------------------------ *)
(** ** The collaborators *)

(** One invocation of the diagnostic callback by the compiler. *)
Record Report : Type := mkReport {
  severity_code : Z;
  message : jsstring;
  report_line : Z;
  report_column : Z;
}.

(** The parser, the serialiser, the compiler and the host's module
    system, as [index.ts] imports them. *)
Class Host : Type := {
  Program : Type;
  WasmModule : Type;
  (** [slang_parse(code, context)]: the tree, if any, and [context.errors]
      as the parser leaves it. *)
  slang_parse :
    jsstring -> list SourceError -> option Program * list SourceError;
  JSON_stringify : Program -> jsstring;
  (** The handle [Sourceror.create_context] returns, given the calls so far. *)
  new_context_handle : list HostCall -> Z;
  (** [Sourceror.compile(handle, es_str, aux)]: the callback invocations it
      makes, in order, and then either the promise it returns, as it
      settles, or what the call itself throws. *)
  Sourceror_compile :
    Z -> jsstring -> jsstring
    -> list Report * CallResult (Settled HostFailure (list byte));
  (** [WebAssembly.compile(bytes)]: the module, or the failure message. *)
  WebAssembly_compile : list byte -> Settled jsstring WasmModule;
  (** [WebAssembly.instantiate(module, imports)] up to the start
      function: the module linked with the imports, or the failure the
      promise is rejected with. *)
  WebAssembly_instantiate : WasmModule -> Settled HostFailure Instance;
  (** [e.toString()] of a host failure. *)
  toString : HostFailure -> jsstring;
}.

(* ------------------------------------------------------------------ *)
(** ** compile *)

(** The variables of one [compile] invocation: the local [has_errors]
    and the world. *)
Record Frame : Type := mkFrame {
  has_errors : bool;
  world : World;
}.

Definition set_has_errors (b : bool) : State Frame unit :=
  fun f => (tt, mkFrame b (world f)).

Definition get_has_errors : State Frame bool :=
  fun f => (has_errors f, f).

Definition in_world (g : World -> World) : State Frame unit :=
  fun f => (tt, mkFrame (has_errors f) (g (world f))).

Definition get_calls : State Frame (list HostCall) :=
  fun f => (calls (world f), f).

(** The result [compile] can be fulfilled with: declared a module, but
    the last handler of the chain also returns the error it receives. *)
Inductive CompileResult (Module_ : Type) : Type :=
| IsModule (m : Module_)
| IsError (e : JSError).
Arguments IsModule {Module_} m.
Arguments IsError {Module_} e.

Section Compile.

Context {host : Host}.

(** The callback given to [Sourceror.create_context]. *)
Definition callback (r : Report) : State Frame unit :=
  when (severity_code r >=? 4) (set_has_errors true) ;;
  in_world (push {|
    type := SYNTAX;
    severity := if severity_code r >=? 4 then ERROR else WARNING;
    location := {|
      start := {| line := report_line r; column := report_column r |};
      end_ := {| line := report_line r; column := report_column r + 1 |} |};
    explain := message r;
    elaborate := lit "" |}).

Definition do_slang_parse (code : jsstring) : State Frame (option Program) :=
  fun f =>
    let (t, errs) := slang_parse code (errors (world f)) in
    (t, mkFrame (has_errors f) (mkWorld errs (calls (world f)))).

Definition do_create_context : State Frame Z :=
  cs <- get_calls ;;
  let h := new_context_handle cs in
  in_world (record_call (Call_create_context h)) ;;
  ret h.

Definition do_Sourceror_compile (h : Z) (es_str aux : jsstring)
  : State Frame (CallResult (Settled JSError (list byte))) :=
  in_world (record_call (Call_Sourceror_compile h es_str aux)) ;;
  let (reports, outcome) := Sourceror_compile h es_str aux in
  for_each callback reports ;;
  ret (match outcome with
       | Returns (Fulfilled b) => Returns (Fulfilled b)
       | Returns (Rejected e) => Returns (Rejected (HostError e))
       | Throws e => Throws e
       end).

Definition do_WebAssembly_compile (wasm_binary : list byte)
  : State Frame (Settled jsstring WasmModule) :=
  in_world (record_call (Call_WebAssembly_compile wasm_binary)) ;;
  ret (WebAssembly_compile wasm_binary).

Definition do_destroy_context (h : Z) : State Frame unit :=
  in_world (record_call (Call_destroy_context h)).

Definition compile_body (code : jsstring)
  : State Frame (Settled JSError (CompileResult WasmModule)) :=
  estree <- do_slang_parse code ;;
  match estree with
  | None =>
      ret (Rejected (CompileError (lit "js-slang cannot parse the program")))
  | Some estree =>
      let es_str := JSON_stringify estree in
      set_has_errors false ;;
      wasm_context <- do_create_context ;;
      called <- do_Sourceror_compile wasm_context es_str (lit "") ;;
      match called with
      | Throws e =>
          (* nothing encloses the call: the async function ends here
             and its promise is rejected with what was thrown *)
          ret (Rejected (HostError e))
      | Returns p =>
      p <- then_ p (fun wasm_binary =>
             has_errors <- get_has_errors ;;
             if negb has_errors then
               q <- do_WebAssembly_compile wasm_binary ;;
               catch_ q (fun err =>
                 in_world (push {|
                   type := SYNTAX;
                   severity := ERROR;
                   location := {|
                     start := {| line := 0; column := 0 |};
                     end_ := {| line := 0; column := 0 |} |};
                   explain := err;
                   elaborate := lit "Your browser's WebAssembly engine is unable to compile the WebAssembly binary produced by Sourceror.  This is probably a bug in Sourceror; please report it." |}) ;;
                 ret (Rejected (CompileError (lit "WebAssembly compilation error"))))
             else
               ret (Rejected (CompileError (lit "Syntax error")))) ;;
      then2 p
        (fun x =>
           do_destroy_context wasm_context ;;
           ret (Fulfilled (IsModule x)))
        (fun e =>
           do_destroy_context wasm_context ;;
           ret (Fulfilled (IsError e)))
      end
  end.

(** [compile(code, context)]: how the returned promise settles, and the
    world afterwards. *)
Definition compile (code : jsstring) (w : World)
  : Settled JSError (CompileResult WasmModule) * World :=
  let (r, f) := compile_body code (mkFrame false w) in (r, world f).

End Compile.

(* ------------------------------------------------------------------ *)
(** ** run *)

(** What a JavaScript caller sees unwind: the private token or a host
    failure. *)
Inductive Thrown : Type :=
| propagationToken
| Failure (e : HostFailure).

(** How a call ends inside the engine: it returns, an import threw, or
    the engine trapped.  A module can catch what an import threw; it
    cannot catch a trap. *)
Inductive Outcome : Type :=
| Returned
| Threw (t : Thrown)
| Trapped (e : HostFailure).

Definition in_bounds (m : Memory) (addr : Z) : bool :=
  (0 <=? addr) && (addr <? byteLength m).

Definition store (m : Memory) (addr : Z) (b : byte) : Memory :=
  mkMemory (byteLength m) (fun i => if i =? addr then b else byteAt m i).

Definition out_of_bounds : HostFailure :=
  WasmRuntimeError (lit "memory access out of bounds").

(** The import [core.error] of [run]. *)
Definition core_error (code detail file line column : Z)
  : State World Outcome :=
  let (explain, elaborate) := stringifySourcerorRuntimeErrorCode code in
  fun w =>
    (Threw propagationToken,
     push {|
       type := RUNTIME;
       severity := ERROR;
       location := {|
         start := {| line := line; column := column |};
         end_ := {| line := line; column := column + 1 |} |};
       explain := explain;
       elaborate := elaborate |} w).

(** Execution of a function of a module linked with [import].  An import
    that returns lets the program go on; one that throws unwinds to the
    nearest enclosing [try] of the module, whose handler then runs, or
    out of the function when there is none. *)
Fixpoint exec (import : Z -> Z -> Z -> Z -> Z -> State World Outcome)
    (p : WasmCode) (m : Memory) (w : World) : Outcome * Memory * World :=
  match p with
  | Ret => (Returned, m, w)
  | Store addr b k =>
      if in_bounds m addr then exec import k (store m addr b) w
      else (Trapped out_of_bounds, m, w)
  | Load addr k =>
      if in_bounds m addr then exec import (k (byteAt m addr)) m w
      else (Trapped out_of_bounds, m, w)
  | CallError code detail file line column k =>
      match import code detail file line column w with
      | (Returned, w') => exec import k m w'
      | (other, w') => (other, m, w')
      end
  | TryCatchAll body handler k =>
      match exec import body m w with
      | (Returned, m', w') => exec import k m' w'
      | (Threw _, m', w') =>
          match exec import handler m' w' with
          | (Returned, m'', w'') => exec import k m'' w''
          | other => other
          end
      | (Trapped e, m', w') => (Trapped e, m', w')
      end
  | Trap msg => (Trapped (WasmRuntimeError msg), m, w)
  end.

Section Run.

Context {host : Host}.

(** [WebAssembly.instantiate(wasm_module, { core: { error } })]: the host
    links the module and runs its start function, with the import of
    [run]; what unwinds out of the start function is what the promise is
    rejected with. *)
Definition do_instantiate (wasm_module : WasmModule)
  : State World (Settled JSError Instance) :=
  fun w =>
    match WebAssembly_instantiate wasm_module with
    | Rejected e => (Rejected (HostError e), record_call Call_instantiate w)
    | Fulfilled linked =>
        match exec core_error (start_function linked) (linear_memory linked)
                   (record_call Call_instantiate w) with
        | (Returned, m, w') => (Fulfilled (mkInstance m Ret (main linked)), w')
        | (Threw propagationToken, _, w') => (Rejected TheToken, w')
        | (Threw (Failure e), _, w') => (Rejected (HostError e), w')
        | (Trapped e, _, w') => (Rejected (HostError e), w')
        end
    end.

(** The [catch] clause of [run]. *)
Definition on_catch (e : Thrown) : State World (Settled JSError JSValue) :=
  match e with
  | propagationToken =>
      ret (Rejected (RuntimeError (lit "runtime error")))
  | Failure e =>
      (fun w => (tt, push {|
         type := RUNTIME;
         severity := ERROR;
         location := {|
           start := {| line := 0; column := 0 |};
           end_ := {| line := 0; column := 0 |} |};
         explain := toString e;
         elaborate := toString e |} w)) ;;
      ret (Rejected (HostError e))
  end.

(** The handler given to [then]: the [try] block and its [catch]. *)
Definition on_instance (instance : Instance)
  : State World (Settled JSError JSValue) :=
  fun w =>
    match exec core_error (main instance) (linear_memory instance)
               (record_call Call_main w) with
    | (Returned, m, w') =>
        match read_js_result m with
        | Normal v => (Fulfilled v, record_call Call_read_js_result w')
        | Throw e => on_catch (Failure e) (record_call Call_read_js_result w')
        end
    | (Threw t, _, w') => on_catch t w'
    | (Trapped e, _, w') => on_catch (Failure e) w'
    end.

Definition run (wasm_module : WasmModule)
  : State World (Settled JSError JSValue) :=
  p <- do_instantiate wasm_module ;;
  then_ p on_instance.

End Run.

(* ================================================================== *)
(** * Reference readings and scenarios

    Definitions the statements below are written with: the positional
    reading of little-endian words, the fault-code table, and concrete
    collaborators to run the pipeline on. *)

(** The value of the byte at an offset, and the positional reading of
    little-endian words: byte [i] weighs [256^i]. *)
Definition u8 (m : Memory) (off : Z) : Z := Z.of_N (Byte.to_N (byteAt m off)).

Definition uint32_le_at (m : Memory) (off : Z) : Z :=
  u8 m off + 2^8 * u8 m (off + 1) + 2^16 * u8 m (off + 2)
  + 2^24 * u8 m (off + 3).

Definition uint64_le_at (m : Memory) (off : Z) : Z :=
  uint32_le_at m off + 2^32 * uint32_le_at m (off + 4).

(** The text the decoder returns for a tag outside 0..5. *)
Definition invalid_tag_text (tag : Z) : jsstring :=
  lit "(struct or invalid type (" ++ Number_toString tag
  ++ lit ") was returned)".

(** The tag word, the string pointer and the string length as the
    decoder reads them. *)
Definition tag_of (m : Memory) : Z := uint32_le_at m (2^20 - 12).
Definition string_pointer (m : Memory) : Z := uint32_le_at m (2^20 - 8).
Definition string_length (m : Memory) : Z := uint32_le_at m (string_pointer m).

(** Two buffers with the same length and the same bytes. *)
Definition same_contents (m m' : Memory) : Prop :=
  byteLength m = byteLength m' /\
  forall i, 0 <= i < byteLength m -> byteAt m i = byteAt m' i.

(** *** Building memories *)

Definition byte_of_Z (z : Z) : byte :=
  match Byte.of_N (Z.to_N z) with
  | Some b => b
  | None => x00
  end.

(** The [n]-byte little-endian encoding of [v]. *)
Fixpoint le_bytes (n : nat) (v : Z) : list byte :=
  match n with
  | O => []
  | S n' => byte_of_Z (v mod 256) :: le_bytes n' (v / 256)
  end.

(** A buffer that is zero except for the given runs of bytes. *)
Fixpoint lookup_cell (cells : list (Z * list byte)) (i : Z) : byte :=
  match cells with
  | [] => x00
  | (off, bs) :: rest =>
      if (off <=? i) && (i <? off + Z.of_nat (List.length bs))
      then nth (Z.to_nat (i - off)) bs x00
      else lookup_cell rest i
  end.

Definition memory_of (size : Z) (cells : list (Z * list byte)) : Memory :=
  mkMemory size (lookup_cell cells).

(** A one-megabyte memory holding [tag] and a data word. *)
Definition tagged_memory (tag : Z) (data : list byte) : Memory :=
  memory_of (2^20) [(2^20 - 12, le_bytes 4 tag); (2^20 - 8, data)].

(** A memory holding a tag-4 result whose string bytes are [bs], placed
    right after the first megabyte. *)
Definition string_memory (bs : list byte) : Memory :=
  memory_of (2^20 + 4 + Z.of_nat (List.length bs))
    [(2^20 - 12, le_bytes 4 4);
     (2^20 - 8, le_bytes 4 (2^20));
     (2^20, le_bytes 4 (Z.of_nat (List.length bs)) ++ bs)].

(** The bit pattern of the double nearest to 3.14 and its value,
    7070651414971679 * 2^-51. *)
Definition bits_3_14 : Z := 4614253070214989087.
Definition double_3_14 : spec_float := S754_finite false 7070651414971679 (-51).

Definition memory_3_14 : Memory := tagged_memory 2 (le_bytes 8 bits_3_14).
Definition memory_true : Memory := tagged_memory 3 (le_bytes 4 1).
Definition memory_tag99 : Memory := tagged_memory 99 [].
Definition memory_hello : Memory :=
  memory_of (2^20)
    [(2^20 - 12, le_bytes 4 4); (2^20 - 8, le_bytes 4 1024);
     (1024, le_bytes 4 5 ++ list_byte_of_string "hello")].

(** Tag 4 with a pointer word of 0xFFFFFFFF. *)
Definition memory_wild_pointer : Memory :=
  tagged_memory 4 (le_bytes 4 4294967295).

(** Tag 4 with a length that runs past the end of the buffer. *)
Definition memory_wild_length : Memory :=
  memory_of (2^20)
    [(2^20 - 12, le_bytes 4 4); (2^20 - 8, le_bytes 4 1024);
     (1024, le_bytes 4 4294967295)].

(** *** The fault-code table *)

Definition unknown_runtime_error : jsstring * jsstring :=
  (lit "Unknown runtime error",
   lit "This is probably a bug in Sourceror; please report it.").

Definition fault_code_table : list (Z * (jsstring * jsstring)) :=
  [ (0x0, (lit "General runtime error", lit ""));
    (0x1, (lit "Out of memory",
           lit "Strings and objects are allocated on the heap.  You have exhausted the available heap space.  Try recompiling your program with increased heap space."));
    (0x10, (lit "General runtime type error", lit ""));
    (0x12, (lit "Unary operator called with incorrect parameter type", lit ""));
    (0x13, (lit "Binary operator called with incorrect parameter type", lit ""));
    (0x16, (lit "Function call operator applied on a non-function", lit ""));
    (0x17, (lit "If statement has a non-boolean condition", lit "")) ].

Fixpoint table_lookup {V} (code : Z) (t : list (Z * V)) : option V :=
  match t with
  | [] => None
  | (c, v) :: t' => if code =? c then Some v else table_lookup code t'
  end.

(** *** Diagnostics by shape *)

Definition is_error (r : Report) : bool := severity_code r >=? 4.

(** The diagnostic the compile callback appends for one report. *)
Definition diagnostic_of_report (r : Report) : SourceError :=
  mkSourceError SYNTAX (if is_error r then ERROR else WARNING)
    (mkLocation (mkPosition (report_line r) (report_column r))
                (mkPosition (report_line r) (report_column r + 1)))
    (message r) (lit "").

(** The diagnostic appended when host validation fails with [err]. *)
Definition validation_diagnostic (err : jsstring) : SourceError :=
  mkSourceError SYNTAX ERROR
    (mkLocation (mkPosition 0 0) (mkPosition 0 0))
    err
    (lit "Your browser's WebAssembly engine is unable to compile the WebAssembly binary produced by Sourceror.  This is probably a bug in Sourceror; please report it.").

(** The diagnostic appended by the fault import. *)
Definition fault_diagnostic (code line column : Z) : SourceError :=
  mkSourceError RUNTIME ERROR
    (mkLocation (mkPosition line column) (mkPosition line (column + 1)))
    (fst (stringifySourcerorRuntimeErrorCode code))
    (snd (stringifySourcerorRuntimeErrorCode code)).

(** *** Counting calls *)

Definition is_create (c : HostCall) : bool :=
  match c with Call_create_context _ => true | _ => false end.
Definition is_destroy (c : HostCall) : bool :=
  match c with Call_destroy_context _ => true | _ => false end.
Definition is_validation (c : HostCall) : bool :=
  match c with Call_WebAssembly_compile _ => true | _ => false end.
Definition is_decode (c : HostCall) : bool :=
  match c with Call_read_js_result => true | _ => false end.

Definition count (p : HostCall -> bool) (cs : list HostCall) : nat :=
  List.length (filter p cs).

(** *** How a function of a module ends *)

(** One invocation of the fault import, by code, line and column, and
    the diagnostic it appends. *)
Definition FaultCall : Type := (Z * Z * Z)%type.

Definition diagnostic_of_fault (c : FaultCall) : SourceError :=
  let '(code, line, column) := c in fault_diagnostic code line column.

Definition report_faults (cs : list FaultCall) (w : World) : World :=
  mkWorld (errors w ++ map diagnostic_of_fault cs) (calls w).

(** How a function ends on a given memory, whatever the sink holds: it
    returns, it calls the fault import outside every [try] of the module,
    or the engine fails. *)
Inductive Ending : Type :=
| Ends (m : Memory)
| Faults (code detail file line column : Z) (m : Memory)
| Fails (e : HostFailure) (m : Memory).

(** The invocations of the fault import which the module caught on the
    way, in order, and the ending. *)
Fixpoint ending (p : WasmCode) (m : Memory) : list FaultCall * Ending :=
  match p with
  | Ret => ([], Ends m)
  | Store addr b k =>
      if in_bounds m addr then ending k (store m addr b)
      else ([], Fails out_of_bounds m)
  | Load addr k =>
      if in_bounds m addr then ending (k (byteAt m addr)) m
      else ([], Fails out_of_bounds m)
  | CallError code detail file line column k =>
      ([], Faults code detail file line column m)
  | TryCatchAll body handler k =>
      match ending body m with
      | (cs, Ends m') =>
          let (cs', e) := ending k m' in (cs ++ cs', e)
      | (cs, Faults code _ _ line column m') =>
          match ending handler m' with
          | (cs', Ends m'') =>
              let (cs'', e) := ending k m'' in
              (cs ++ (code, line, column) :: cs' ++ cs'', e)
          | (cs', e) => (cs ++ (code, line, column) :: cs', e)
          end
      | (cs, Fails e m') => (cs, Fails e m')
      end
  | Trap msg => ([], Fails (WasmRuntimeError msg) m)
  end.

(** *** Concrete collaborators *)

Fixpoint list_eqb {A} (eqb : A -> A -> bool) (l l' : list A) : bool :=
  match l, l' with
  | [], [] => true
  | a :: l, a' :: l' => eqb a a' && list_eqb eqb l l'
  | _, _ => false
  end.

Module Scenario.

(** A parser that rejects the empty program, reporting it, and
    otherwise takes the text as its own tree. *)
Definition parse_diagnostic : SourceError :=
  mkSourceError SYNTAX ERROR
    (mkLocation (mkPosition 1 0) (mkPosition 1 1))
    (lit "Unexpected end of input") (lit "").

Definition parse (code : jsstring) (errs : list SourceError)
  : option jsstring * list SourceError :=
  match code with
  | [] => (None, errs ++ [parse_diagnostic])
  | _ => (Some code, errs)
  end.

Definition good_bytes : list byte := [x00; x61; x73; x6d; x01; x00; x00; x00].
Definition bad_bytes : list byte := [xff].

Definition unused : Report := mkReport 2 (lit "Unused variable x") 3 4.
Definition undeclared : Report := mkReport 4 (lit "Undeclared name y") 5 6.

(** A compiler that warns on "warn", reports an error and still yields
    bytes on "error", yields bytes that are no module on "garbage",
    returns a promise that is rejected on "crash", and throws out of the
    call itself, after one report, on "abort". *)
Definition compiler (h : Z) (es_str aux : jsstring)
  : list Report * CallResult (Settled HostFailure (list byte)) :=
  if list_eqb Z.eqb es_str (lit "warn")
    then ([unused], Returns (Fulfilled good_bytes))
  else if list_eqb Z.eqb es_str (lit "error")
    then ([unused; undeclared], Returns (Fulfilled good_bytes))
  else if list_eqb Z.eqb es_str (lit "garbage")
    then ([], Returns (Fulfilled bad_bytes))
  else if list_eqb Z.eqb es_str (lit "crash")
    then ([], Returns (Rejected (ExternalFailure (lit "compiler crashed"))))
  else if list_eqb Z.eqb es_str (lit "abort")
    then ([unused], Throws (WasmRuntimeError (lit "unreachable")))
  else ([], Returns (Fulfilled good_bytes)).

(** The module every valid binary stands for: it writes a byte, calls
    the fault import with code 0x1, and would then store the tag and
    data word of the boolean true. *)
Definition faulting : WasmCode :=
  Store 100 x2a
    (CallError 1 0 0 7 3
       (Store (2^20 - 12) x03 (Store (2^20 - 8) x01 Ret))).

Definition the_module : Instance :=
  mkInstance (memory_of (2^20) []) Ret faulting.

Definition validate (wasm_binary : list byte) : Settled jsstring Instance :=
  if list_eqb Byte.eqb wasm_binary good_bytes then Fulfilled the_module
  else Rejected (lit "CompileError: expected magic word 00 61 73 6d").

Definition describe (e : HostFailure) : jsstring :=
  match e with
  | RangeError => lit "RangeError"
  | WasmRuntimeError msg => lit "RuntimeError: " ++ msg
  | ExternalFailure msg => msg
  end.

(** Modules are their instances; linking always succeeds. *)
Definition host : Host := {|
  Program := jsstring;
  WasmModule := Instance;
  slang_parse := parse;
  JSON_stringify := fun t => t;
  new_context_handle := fun cs => 1 + Z.of_nat (List.length cs);
  Sourceror_compile := compiler;
  WebAssembly_compile := validate;
  WebAssembly_instantiate := fun mod_ => Fulfilled mod_;
  toString := describe;
|}.

Definition empty_world : World := mkWorld [] [].

End Scenario.

(** The calls of a compilation that got a tree, up to and including the
    compile operation. *)
Definition opening (cs : list HostCall) (h : Z) (es_str : jsstring)
  : list HostCall :=
  cs ++ [Call_create_context h; Call_Sourceror_compile h es_str (lit "")].

(** *** Texts as bytes *)

(** A text all of whose code units are ASCII, and its bytes. *)
Definition is_ascii_text (s : jsstring) : bool :=
  forallb (fun c => (0 <=? c) && (c <? 128)) s.

Definition text_bytes (s : jsstring) : list byte := map byte_of_Z s.

Definition byte_value (b : byte) : Z := Z.of_N (Byte.to_N b).

(** The three texts that stand for something other than a string. *)
Definition unassigned_text : jsstring :=
  lit "(unassigned variable was returned)".
Definition function_text : jsstring := lit "(function was returned)".

(** What the decoder returns for the tags that carry no host value. *)
Definition marker_text (tag : Z) : jsstring :=
  if tag =? 0 then unassigned_text
  else if tag =? 5 then function_text
  else invalid_tag_text tag.

(* ------------------------------------------------------------------ *)
(** ** Readings for the further properties *)

(** Whether every read the decoder makes for the tag of [m] lies inside
    the buffer. *)
Definition readable (m : Memory) : bool :=
  (2^20 - 8 <=? byteLength m) &&
  (if tag_of m =? 2 then 2^20 <=? byteLength m
   else if tag_of m =? 3 then 2^20 - 4 <=? byteLength m
   else if tag_of m =? 4 then
     (2^20 - 4 <=? byteLength m)
     && (string_pointer m + 4 + string_length m <=? byteLength m)
   else true).

(** Two buffers with the same bytes at the offsets from [lo] up to, not
    including, [hi]. *)
Definition agree_on (m m' : Memory) (lo hi : Z) : Prop :=
  forall i, lo <= i < hi -> byteAt m i = byteAt m' i.

(** The bytes of the string a tag-4 result points to. *)
Definition string_bytes (m : Memory) : list byte :=
  bytes_from m (string_pointer m + 4) (Z.to_nat (string_length m)).

(** The codes with an entry of their own in the switch of
    [stringifySourcerorRuntimeErrorCode]. *)
Definition known_code (code : Z) : bool :=
  existsb (Z.eqb code) [0x0; 0x1; 0x10; 0x12; 0x13; 0x16; 0x17].

(** The diagnostic the [catch] clause of [run] appends for a failure
    whose description is [text]. *)
Definition unexpected_diagnostic (text : jsstring) : SourceError :=
  mkSourceError RUNTIME ERROR
    (mkLocation (mkPosition 0 0) (mkPosition 0 0)) text text.

Module Programs.

(** An entry point that stores the tag and data word of [true] and
    returns. *)
Definition returning_true : Instance :=
  mkInstance (memory_of (2^20) []) Ret
    (Store (2^20 - 12) x03 (Store (2^20 - 8) x01 Ret)).

(** An entry point that stores one byte and then traps. *)
Definition trapping : Instance :=
  mkInstance (memory_of (2^20) []) Ret
    (Store 100 x2a (Trap (lit "unreachable"))).

(** An entry point that stores past the end of the memory. *)
Definition storing_outside : Instance :=
  mkInstance (memory_of (2^20) []) Ret (Store (2^20) x01 Ret).

(** An entry point that returns a tag-4 result whose pointer word is
    0xFFFFFFFF. *)
Definition wild_string : Instance :=
  mkInstance (memory_of (2^20) []) Ret
    (Store (2^20 - 12) x04
       (Store (2^20 - 8) xff (Store (2^20 - 7) xff
          (Store (2^20 - 6) xff (Store (2^20 - 5) xff Ret))))).

(** An entry point that calls the fault import inside a [try] with a
    [catch_all], and after it stores the tag and data word of [true]. *)
Definition catching : Instance :=
  mkInstance (memory_of (2^20) []) Ret
    (Store 100 x2a
       (TryCatchAll (CallError 1 0 0 7 3 Ret) Ret
          (Store (2^20 - 12) x03 (Store (2^20 - 8) x01 Ret)))).

(** A module whose start function calls the fault import. *)
Definition faulting_start : Instance :=
  mkInstance (memory_of (2^20) []) (CallError 1 0 0 2 9 Ret)
    (Store (2^20 - 12) x03 (Store (2^20 - 8) x01 Ret)).

(** A module whose start function traps. *)
Definition trapping_start : Instance :=
  mkInstance (memory_of (2^20) []) (Trap (lit "unreachable")) Ret.

(** A host whose module system refuses to instantiate. *)
Definition refusing : Host := {|
  Program := jsstring;
  WasmModule := Instance;
  slang_parse := Scenario.parse;
  JSON_stringify := fun t => t;
  new_context_handle := fun cs => 1 + Z.of_nat (List.length cs);
  Sourceror_compile := Scenario.compiler;
  WebAssembly_compile := Scenario.validate;
  WebAssembly_instantiate :=
    fun _ => Rejected (ExternalFailure (lit "LinkError: import missing"));
  toString := Scenario.describe;
|}.

(** A sink that already holds an Error diagnostic, and calls already
    made. *)
Definition used_world : World :=
  mkWorld [Scenario.parse_diagnostic] [Call_instantiate; Call_main].

(** A tag-4 memory whose string is a byte order mark followed by "hi". *)
Definition memory_bom_hi : Memory :=
  string_memory [xef; xbb; xbf; x68; x69].

End Programs.

(* ================================================================== *)
(** * Properties *)

(* ------------------------------------------------------------------ *)
(** ** Reading integers out of memory *)

Lemma byte_value_range (b : byte) : 0 <= Z.of_N (Byte.to_N b) < 256.
Proof.
  pose proof (Byte.to_N_bounded b). lia.
Qed.

Lemma land_low_high (b x : Z) :
  0 <= b < 256 -> Z.land b (Z.shiftl x 8) = 0.
Proof.
  intros Hb. apply Z.bits_inj'. intros n Hn.
  rewrite Z.land_spec, Z.bits_0.
  destruct (Z.ltb_spec n 8) as [Hlt | Hge].
  - rewrite Z.shiftl_spec_low by assumption. apply andb_false_r.
  - assert (Z.testbit b n = false) as ->; [| reflexivity].
    destruct (Z.eq_dec b 0) as [-> | Hnz]; [apply Z.bits_0 |].
    apply Z.bits_above_log2; [lia |].
    apply Z.log2_lt_pow2; [lia |].
    apply Z.lt_le_trans with (2 ^ 8); [simpl; lia |].
    apply Z.pow_le_mono_r; lia.
Qed.

Lemma lor_shiftl_byte (b x : Z) :
  0 <= b < 256 -> Z.lor b (Z.shiftl x 8) = b + 256 * x.
Proof.
  intros Hb.
  rewrite <- Z.lxor_lor, <- Z.add_nocarry_lxor by (apply land_low_high; exact Hb).
  rewrite Z.shiftl_mul_pow2 by lia. change (2 ^ 8) with 256. lia.
Qed.

Lemma le_value_cons (b : byte) (bs : list byte) :
  le_value (b :: bs) = Z.of_N (Byte.to_N b) + 256 * le_value bs.
Proof.
  simpl. apply lor_shiftl_byte, byte_value_range.
Qed.

Lemma le_value_nonneg (bs : list byte) : 0 <= le_value bs.
Proof.
  induction bs as [| b bs IH]; [simpl; lia |].
  rewrite le_value_cons. pose proof (byte_value_range b). lia.
Qed.

Lemma le_value_4 (m : Memory) (off : Z) :
  le_value (bytes_from m off 4) = uint32_le_at m off.
Proof.
  unfold bytes_from. rewrite !le_value_cons. unfold uint32_le_at, u8.
  replace (off + 1 + 1) with (off + 2) by lia.
  replace (off + 2 + 1) with (off + 3) by lia.
  change (le_value []) with 0. lia.
Qed.

Lemma le_value_8 (m : Memory) (off : Z) :
  le_value (bytes_from m off 8) = uint64_le_at m off.
Proof.
  unfold bytes_from. rewrite !le_value_cons.
  unfold uint64_le_at, uint32_le_at, u8.
  replace (off + 1 + 1) with (off + 2) by lia.
  replace (off + 2 + 1) with (off + 3) by lia.
  replace (off + 3 + 1) with (off + 4) by lia.
  replace (off + 4 + 1 + 1) with (off + 4 + 2) by lia.
  replace (off + 4 + 2 + 1) with (off + 4 + 3) by lia.
  replace (off + 4 + 3 + 1) with (off + 4 + 3 + 1) by lia.
  change (le_value []) with 0. lia.
Qed.

Lemma uint32_le_at_range (m : Memory) (off : Z) :
  0 <= uint32_le_at m off < 2^32.
Proof.
  unfold uint32_le_at, u8.
  pose proof (byte_value_range (byteAt m off)).
  pose proof (byte_value_range (byteAt m (off + 1))).
  pose proof (byte_value_range (byteAt m (off + 2))).
  pose proof (byte_value_range (byteAt m (off + 3))).
  lia.
Qed.

Lemma getUint32_in_bounds (m : Memory) (off : Z) :
  off + 4 <= byteLength m -> getUint32 m off = Normal (uint32_le_at m off).
Proof.
  intros H. unfold getUint32.
  destruct (Z.gtb_spec (off + 4) (byteLength m)); [lia |].
  now rewrite le_value_4.
Qed.

Lemma getUint32_out_of_bounds (m : Memory) (off : Z) :
  byteLength m < off + 4 -> getUint32 m off = Throw RangeError.
Proof.
  intros H. unfold getUint32.
  destruct (Z.gtb_spec (off + 4) (byteLength m)); [reflexivity | lia].
Qed.

Lemma getFloat64_in_bounds (m : Memory) (off : Z) :
  off + 8 <= byteLength m ->
  getFloat64 m off = Normal (float64_of_bits (uint64_le_at m off)).
Proof.
  intros H. unfold getFloat64.
  destruct (Z.gtb_spec (off + 8) (byteLength m)); [lia |].
  now rewrite le_value_8.
Qed.

Lemma Uint8Array_view_in_bounds (m : Memory) (off len : Z) :
  off + len <= byteLength m ->
  Uint8Array_view m off len = Normal (bytes_from m off (Z.to_nat len)).
Proof.
  intros H. unfold Uint8Array_view.
  destruct (Z.gtb_spec (off + len) (byteLength m)); [lia | reflexivity].
Qed.

Lemma Uint8Array_view_out_of_bounds (m : Memory) (off len : Z) :
  byteLength m < off + len -> Uint8Array_view m off len = Throw RangeError.
Proof.
  intros H. unfold Uint8Array_view.
  destruct (Z.gtb_spec (off + len) (byteLength m)); [reflexivity | lia].
Qed.


(* ------------------------------------------------------------------ *)
(** ** The decoder, tag by tag *)

Lemma tag_offset_eq : tag_offset = 2^20 - 12.
Proof. reflexivity. Qed.

Lemma data_offset_eq : data_offset = 2^20 - 8.
Proof. reflexivity. Qed.

(** Once the tag word is readable, the decoder is its [switch]. *)
Ltac read_tag m H :=
  unfold read_js_result;
  rewrite (getUint32_in_bounds m tag_offset)
    by (rewrite tag_offset_eq; lia);
  rewrite tag_offset_eq; fold (tag_of m); rewrite H; cbn [cbind].

Section Tags.

Variable m : Memory.
Hypothesis megabyte : 2^20 <= byteLength m.

Lemma read_tag_0 :
  tag_of m = 0 ->
  read_js_result m
  = Normal (VString (lit "(unassigned variable was returned)")).
Proof. intros H. read_tag m H. reflexivity. Qed.

Lemma read_tag_1 : tag_of m = 1 -> read_js_result m = Normal VUndefined.
Proof. intros H. read_tag m H. reflexivity. Qed.

Lemma read_tag_2 :
  tag_of m = 2 ->
  read_js_result m
  = Normal (VNumber (float64_of_bits (uint64_le_at m (2^20 - 8)))).
Proof.
  intros H. read_tag m H.
  rewrite getFloat64_in_bounds by (rewrite data_offset_eq; lia).
  reflexivity.
Qed.

Lemma read_tag_3 :
  tag_of m = 3 ->
  read_js_result m
  = Normal (VBoolean (negb (uint32_le_at m (2^20 - 8) =? 0))).
Proof.
  intros H. read_tag m H.
  rewrite getUint32_in_bounds by (rewrite data_offset_eq; lia).
  reflexivity.
Qed.

Lemma read_tag_4 :
  tag_of m = 4 ->
  string_pointer m + 4 + string_length m <= byteLength m ->
  read_js_result m
  = Normal (VString (TextDecoder.decode
              (bytes_from m (string_pointer m + 4)
                 (Z.to_nat (string_length m))))).
Proof.
  intros H Hend. read_tag m H.
  pose proof (uint32_le_at_range m (2^20 - 8)) as Hp.
  pose proof (uint32_le_at_range m (string_pointer m)) as Hl.
  fold (string_pointer m) in Hp. fold (string_length m) in Hl.
  rewrite (getUint32_in_bounds m data_offset)
    by (rewrite data_offset_eq; lia).
  rewrite data_offset_eq. fold (string_pointer m). cbn [cbind].
  rewrite getUint32_in_bounds by lia.
  fold (string_length m). cbn [cbind].
  rewrite Uint8Array_view_in_bounds by lia.
  reflexivity.
Qed.

End Tags.

Lemma read_tag_5 (m : Memory) :
  2^20 <= byteLength m -> tag_of m = 5 ->
  read_js_result m = Normal (VString (lit "(function was returned)")).
Proof. intros Hm H. read_tag m H. reflexivity. Qed.

Lemma read_tag_other (m : Memory) :
  2^20 <= byteLength m -> ~ 0 <= tag_of m <= 5 ->
  read_js_result m = Normal (VString (invalid_tag_text (tag_of m))).
Proof.
  intros Hm H.
  unfold read_js_result.
  rewrite (getUint32_in_bounds m tag_offset) by (rewrite tag_offset_eq; lia).
  rewrite tag_offset_eq. fold (tag_of m). cbn [cbind].
  unfold invalid_tag_text.
  destruct (tag_of m) as [| p | p]; [lia | | reflexivity].
  destruct p as [[[q | q |] | [q | q |] |] | [[q | q |] | [q | q |] |] |];
    try reflexivity; exfalso; lia.
Qed.

(** A tag-4 result whose string runs past the end of the buffer. *)
Lemma read_tag_4_out_of_bounds (m : Memory) :
  2^20 <= byteLength m -> tag_of m = 4 ->
  byteLength m < string_pointer m + 4 + string_length m ->
  read_js_result m = Throw RangeError.
Proof.
  intros Hm H Hend. read_tag m H.
  rewrite (getUint32_in_bounds m data_offset) by (rewrite data_offset_eq; lia).
  rewrite data_offset_eq. fold (string_pointer m). cbn [cbind].
  destruct (Z_le_gt_dec (string_pointer m + 4) (byteLength m)) as [Hp | Hp].
  - rewrite getUint32_in_bounds by lia.
    fold (string_length m). cbn [cbind].
    rewrite Uint8Array_view_out_of_bounds by lia. reflexivity.
  - rewrite getUint32_out_of_bounds by lia. reflexivity.
Qed.

(* ------------------------------------------------------------------ *)
(** ** The decoder depends on the contents of the buffer only *)

Section SameContents.

Variables m m' : Memory.
Hypothesis same : same_contents m m'.

Lemma bytes_from_same (n : nat) (off : Z) :
  0 <= off -> off + Z.of_nat n <= byteLength m ->
  bytes_from m off n = bytes_from m' off n.
Proof.
  revert off. induction n as [| n IH]; intros off H0 Hend; [reflexivity |].
  simpl. destruct same as [_ Hbytes].
  rewrite Hbytes by lia. f_equal. apply IH; lia.
Qed.

Lemma getUint32_same (off : Z) :
  0 <= off -> getUint32 m off = getUint32 m' off.
Proof.
  intros H0. unfold getUint32.
  destruct same as [Hlen _]. rewrite <- Hlen.
  destruct (Z.gtb_spec (off + 4) (byteLength m)); [reflexivity |].
  rewrite bytes_from_same by (simpl; lia). reflexivity.
Qed.

Lemma getFloat64_same (off : Z) :
  0 <= off -> getFloat64 m off = getFloat64 m' off.
Proof.
  intros H0. unfold getFloat64.
  destruct same as [Hlen _]. rewrite <- Hlen.
  destruct (Z.gtb_spec (off + 8) (byteLength m)); [reflexivity |].
  rewrite bytes_from_same by (simpl; lia). reflexivity.
Qed.

Lemma Uint8Array_view_same (off len : Z) :
  0 <= off -> 0 <= len ->
  Uint8Array_view m off len = Uint8Array_view m' off len.
Proof.
  intros H0 Hl. unfold Uint8Array_view.
  destruct same as [Hlen _]. rewrite <- Hlen.
  destruct (Z.gtb_spec (off + len) (byteLength m)); [reflexivity |].
  rewrite bytes_from_same by lia. reflexivity.
Qed.

Lemma getUint32_nonneg (mem : Memory) (off v : Z) :
  getUint32 mem off = Normal v -> 0 <= v.
Proof.
  unfold getUint32. destruct (off + 4 >? byteLength mem); [discriminate |].
  intros H.
  assert (v = le_value (bytes_from mem off 4)) as -> by congruence.
  apply le_value_nonneg.
Qed.

Lemma read_js_result_same : read_js_result m = read_js_result m'.
Proof.
  unfold read_js_result.
  rewrite <- (getUint32_same tag_offset) by (rewrite tag_offset_eq; lia).
  destruct (getUint32 m tag_offset) as [tag | e]; [| reflexivity].
  cbn [cbind].
  assert (0 <= data_offset) as Hd by (rewrite data_offset_eq; lia).
  destruct tag as [| p | p]; try reflexivity.
  destruct p as [[[q | q |] | [q | q |] |] | [[q | q |] | [q | q |] |] |];
    try reflexivity.
  - (* tag 3 *)
    rewrite <- (getUint32_same data_offset) by exact Hd. reflexivity.
  - (* tag 4 *)
    rewrite <- (getUint32_same data_offset) by exact Hd.
    destruct (getUint32 m data_offset) as [ptr | e] eqn:Eptr;
      [| reflexivity].
    apply getUint32_nonneg in Eptr. cbn [cbind].
    rewrite <- (getUint32_same ptr) by exact Eptr.
    destruct (getUint32 m ptr) as [len | e] eqn:Elen; [| reflexivity].
    apply getUint32_nonneg in Elen. cbn [cbind].
    rewrite <- Uint8Array_view_same by lia. reflexivity.
  - (* tag 2 *)
    rewrite <- (getFloat64_same data_offset) by exact Hd. reflexivity.
Qed.

End SameContents.

(* ------------------------------------------------------------------ *)
(** ** The decoder: layout, outcome and examples *)

Lemma tag_cases (t : Z) :
  t = 0 \/ t = 1 \/ t = 2 \/ t = 3 \/ t = 4 \/ t = 5 \/ ~ 0 <= t <= 5.
Proof. lia. Qed.

(** C6. With a memory of at least [1<<20] bytes, [read_js_result] reads
    the tag as the little-endian unsigned 32-bit word at byte offset
    [(1<<20)-12] and the data at [(1<<20)-8]; it returns undefined for
    tag 1, the little-endian binary64 value at the data offset for tag 2,
    a boolean that is true exactly when the 32-bit word at the data
    offset is nonzero for tag 3, the UTF-8 decoding of the [len] bytes at
    [p+4] for tag 4 (with [p] the word at the data offset and [len] the
    word at [p], the bytes lying inside the memory), and for a tag
    outside 0..5 the invalid-tag text that carries the tag in decimal. *)
Theorem read_js_result_layout (m : Memory) :
  2^20 <= byteLength m ->
  (tag_of m = 1 -> read_js_result m = Normal VUndefined) /\
  (tag_of m = 2 ->
   read_js_result m
   = Normal (VNumber (float64_of_bits (uint64_le_at m (2^20 - 8))))) /\
  (tag_of m = 3 ->
   exists b, read_js_result m = Normal (VBoolean b) /\
             (b = true <-> uint32_le_at m (2^20 - 8) <> 0)) /\
  (tag_of m = 4 ->
   string_pointer m + 4 + string_length m <= byteLength m ->
   read_js_result m
   = Normal (VString (TextDecoder.decode
               (bytes_from m (string_pointer m + 4)
                  (Z.to_nat (string_length m)))))) /\
  (~ 0 <= tag_of m <= 5 ->
   read_js_result m = Normal (VString (invalid_tag_text (tag_of m)))).
Proof.
  intros Hm. repeat split.
  - now apply read_tag_1.
  - now apply read_tag_2.
  - intros H. eexists. split; [now apply read_tag_3 |].
    rewrite negb_true_iff, Z.eqb_neq. tauto.
  - now apply read_tag_4.
  - now apply read_tag_other.
Qed.

Lemma read_js_result_layout_witness :
  2^20 <= byteLength memory_hello /\
  read_js_result memory_hello = Normal (VString (lit "hello")).
Proof.
  assert (2^20 <= byteLength memory_hello) as Hm by (vm_compute; discriminate).
  split; [exact Hm |].
  destruct (read_js_result_layout memory_hello Hm) as (_ & _ & _ & H4 & _).
  rewrite H4.
  - vm_compute. reflexivity.
  - vm_compute. reflexivity.
  - vm_compute. discriminate.
Defined.

(** The decoder examples: the double 3.14, the boolean true, the
    string "hello", and the tag 99. *)
Example read_js_result_3_14 :
  tag_of memory_3_14 = 2 /\
  uint64_le_at memory_3_14 (2^20 - 8) = bits_3_14 /\
  read_js_result memory_3_14 = Normal (VNumber double_3_14).
Proof. vm_compute. repeat split. Qed.

Example read_js_result_true :
  tag_of memory_true = 3 /\
  read_js_result memory_true = Normal (VBoolean true).
Proof. vm_compute. repeat split. Qed.

Example read_js_result_hello :
  tag_of memory_hello = 4 /\
  bytes_from memory_hello (string_pointer memory_hello + 4)
    (Z.to_nat (string_length memory_hello)) = list_byte_of_string "hello" /\
  read_js_result memory_hello = Normal (VString (lit "hello")).
Proof. vm_compute. repeat split. Qed.

Example read_js_result_tag99 :
  tag_of memory_tag99 = 99 /\
  read_js_result memory_tag99
  = Normal (VString (lit "(struct or invalid type (99) was returned)")).
Proof. vm_compute. repeat split. Qed.

(** The binary64 readings of some bit patterns: 1, -0, the smallest
    subnormal, +infinity and a NaN; and 3.14 lies within half a unit in
    the last place of the value decoded for it. *)
Example float64_of_bits_samples :
  float64_of_bits 0x3FF0000000000000 = S754_finite false (2^52) (-52) /\
  float64_of_bits 0x8000000000000000 = S754_zero true /\
  float64_of_bits 0x0000000000000001 = S754_finite false 1 (-1074) /\
  float64_of_bits 0x7FF0000000000000 = S754_infinity false /\
  float64_of_bits 0x7FF8000000000000 = S754_nan /\
  float64_of_bits bits_3_14 = double_3_14 /\
  Z.abs (314 * 2^51 - 100 * 7070651414971679) <= 50.
Proof. vm_compute. repeat split; discriminate. Qed.

(** The text decoder on two-, three- and four-byte sequences, on a byte
    order mark, and on bytes that are not UTF-8. *)
Example TextDecoder_samples :
  TextDecoder.decode [xc3; xa9] = [233] /\
  TextDecoder.decode [xe2; x82; xac] = [8364] /\
  TextDecoder.decode [xf0; x9f; x98; x80] = [55357; 56832] /\
  TextDecoder.decode [xef; xbb; xbf; x68; x69] = lit "hi" /\
  TextDecoder.decode [xff; x68] = [65533; 104] /\
  TextDecoder.decode [xed; xa0; x80] = [65533; 65533; 65533] /\
  TextDecoder.decode [xe2; x82] = [65533].
Proof. vm_compute. repeat split. Qed.

(** C3, as the code has it.  With a memory of at least [1<<20] bytes,
    [read_js_result] raises a RangeError when the tag is 4 and the string
    region [p+4 .. p+4+len] runs past the end of the memory, and returns
    a value in every other case; a tag outside 0..5 gives the invalid-tag
    text and no error; and the outcome is a function of the contents of
    the memory only. *)
Theorem read_js_result_outcome (m : Memory) :
  2^20 <= byteLength m ->
  (if (tag_of m =? 4)
      && (byteLength m <? string_pointer m + 4 + string_length m)
   then read_js_result m = Throw RangeError
   else exists v, read_js_result m = Normal v) /\
  (~ 0 <= tag_of m <= 5 ->
   read_js_result m = Normal (VString (invalid_tag_text (tag_of m)))) /\
  (forall m', same_contents m m' -> read_js_result m' = read_js_result m).
Proof.
  intros Hm. split; [| split].
  - destruct (Z.eqb_spec (tag_of m) 4) as [H4 | H4]; cbn [andb].
    + destruct (Z.ltb_spec (byteLength m)
                  (string_pointer m + 4 + string_length m)) as [Hend | Hend].
      * now apply read_tag_4_out_of_bounds.
      * eexists. now apply read_tag_4.
    + destruct (tag_cases (tag_of m))
        as [H | [H | [H | [H | [H | [H | H]]]]]]; try contradiction;
        eexists.
      * now apply read_tag_0.
      * now apply read_tag_1.
      * now apply read_tag_2.
      * now apply read_tag_3.
      * now apply read_tag_5.
      * now apply read_tag_other.
  - now apply read_tag_other.
  - intros m' Hsame. symmetry. now apply read_js_result_same.
Qed.

Lemma read_js_result_outcome_witness :
  2^20 <= byteLength memory_hello /\
  exists v, read_js_result memory_hello = Normal v.
Proof.
  assert (2^20 <= byteLength memory_hello) as Hm by (vm_compute; discriminate).
  split; [exact Hm |].
  exact (proj1 (read_js_result_outcome memory_hello Hm)).
Defined.

(** C3, as stated, fails: a one-megabyte memory with tag 4 and the
    pointer word 0xFFFFFFFF makes the decoder raise a RangeError. *)
Lemma read_js_result_raises :
  byteLength memory_wild_pointer = 2^20 /\
  tag_of memory_wild_pointer = 4 /\
  string_pointer memory_wild_pointer = 4294967295 /\
  read_js_result memory_wild_pointer = Throw RangeError /\
  ~ (forall m : Memory, exists v, read_js_result m = Normal v).
Proof.
  assert (read_js_result memory_wild_pointer = Throw RangeError) as H
    by (vm_compute; reflexivity).
  split; [vm_compute; reflexivity |].
  split; [vm_compute; reflexivity |].
  split; [vm_compute; reflexivity |].
  split; [exact H |].
  intros Hall. destruct (Hall memory_wild_pointer) as [v Hv].
  rewrite H in Hv. discriminate.
Qed.

(** The same with a pointer inside the memory and a length that is not. *)
Example read_js_result_raises_on_length :
  string_pointer memory_wild_length = 1024 /\
  string_length memory_wild_length = 4294967295 /\
  read_js_result memory_wild_length = Throw RangeError.
Proof. vm_compute. repeat split. Qed.

(* ------------------------------------------------------------------ *)
(** ** The fault-code table *)

(** C9. [stringifySourcerorRuntimeErrorCode] is the lookup in the
    fault-code table, whose codes are exactly 0x0, 0x1, 0x10, 0x12, 0x13,
    0x16 and 0x17, with the unknown-runtime-error pair for every other
    integer; 0x1 gives the out-of-memory pair that recommends recompiling
    with more heap space. *)
Theorem stringifySourcerorRuntimeErrorCode_table :
  (forall code : Z,
     stringifySourcerorRuntimeErrorCode code
     = match table_lookup code fault_code_table with
       | Some entry => entry
       | None => unknown_runtime_error
       end) /\
  map fst fault_code_table = [0x0; 0x1; 0x10; 0x12; 0x13; 0x16; 0x17] /\
  stringifySourcerorRuntimeErrorCode 0x1
  = (lit "Out of memory",
     lit "Strings and objects are allocated on the heap.  You have exhausted the available heap space.  Try recompiling your program with increased heap space.").
Proof.
  split; [| split; reflexivity].
  intros code.
  destruct code as [| p | p]; [reflexivity | | reflexivity].
  do 5 (try (destruct p as [p | p |]; try reflexivity)).
Qed.



(* ------------------------------------------------------------------ *)
(** ** compile, path by path *)

(** Runs the state-passing code of [compile] as far as it is determined. *)
Ltac run_state :=
  cbv beta iota zeta delta
    [bind ret then_ then2 catch_ when
     set_has_errors get_has_errors in_world get_calls
     do_create_context do_Sourceror_compile do_WebAssembly_compile
     do_destroy_context record_call push
     world errors has_errors calls fst snd negb orb].

Section CompileFacts.

Context {host : Host}.

(** The callback, run over the reports of one compilation: every report
    appends its diagnostic, and the flag is raised by the first one with
    a severity code of 4 or more. *)
Lemma for_each_callback (rs : list Report) (f : Frame) :
  for_each callback rs f
  = (tt, mkFrame (has_errors f || existsb is_error rs)
           (mkWorld (errors (world f) ++ map diagnostic_of_report rs)
                    (calls (world f)))).
Proof.
  revert f. induction rs as [| r rs IH]; intros [he [errs cs]].
  - simpl. unfold ret. now rewrite orb_false_r, app_nil_r.
  - cbn [for_each]. unfold bind at 1.
    assert (callback r (mkFrame he (mkWorld errs cs))
            = (tt, mkFrame (he || is_error r)
                     (mkWorld (errs ++ [diagnostic_of_report r]) cs))) as ->.
    { unfold callback, bind, when, set_has_errors, in_world, push, ret,
        diagnostic_of_report, is_error.
      destruct (severity_code r >=? 4); cbn;
        [now rewrite orb_true_r | now rewrite orb_false_r]. }
    rewrite IH. cbn. now rewrite orb_assoc, <- app_assoc.
Qed.

(** No tree: the promise is rejected at once and nothing else happens. *)
Lemma compile_not_parsed (code : jsstring) (w : World)
    (errs : list SourceError) :
  slang_parse code (errors w) = (None, errs) ->
  compile code w
  = (Rejected (CompileError (lit "js-slang cannot parse the program")),
     mkWorld errs (calls w)).
Proof.
  intros parsed. unfold compile, compile_body, bind, do_slang_parse.
  cbn. rewrite parsed. reflexivity.
Qed.

(** A tree: the compilation up to the point where the compile operation
    has settled. *)
Lemma compile_parsed (code : jsstring) (w : World)
    (estree : Program) (errs : list SourceError) :
  slang_parse code (errors w) = (Some estree, errs) ->
  let h := new_context_handle (calls w) in
  let es_str := JSON_stringify estree in
  let reports := fst (Sourceror_compile h es_str (lit "")) in
  let reported := errs ++ map diagnostic_of_report reports in
  let opened := opening (calls w) h es_str in
  compile code w
  = match snd (Sourceror_compile h es_str (lit "")) with
    | Throws e => (Rejected (HostError e), mkWorld reported opened)
    | Returns (Rejected e) =>
        (Fulfilled (IsError (HostError e)),
         mkWorld reported (opened ++ [Call_destroy_context h]))
    | Returns (Fulfilled wasm_binary) =>
        if existsb is_error reports then
          (Fulfilled (IsError (CompileError (lit "Syntax error"))),
           mkWorld reported (opened ++ [Call_destroy_context h]))
        else
          match WebAssembly_compile wasm_binary with
          | Fulfilled x =>
              (Fulfilled (IsModule x),
               mkWorld reported
                 (opened ++ [Call_WebAssembly_compile wasm_binary;
                             Call_destroy_context h]))
          | Rejected err =>
              (Fulfilled
                 (IsError (CompileError (lit "WebAssembly compilation error"))),
               mkWorld (reported ++ [validation_diagnostic err])
                 (opened ++ [Call_WebAssembly_compile wasm_binary;
                             Call_destroy_context h]))
          end
    end.
Proof.
  intros parsed h es_str reports reported opened.
  destruct w as [errs0 cs0]. cbn [errors calls] in *.
  unfold compile, compile_body, do_slang_parse. unfold bind at 1.
  cbn [world errors has_errors calls]. rewrite parsed.
  run_state. fold h. fold es_str.
  subst reports reported opened.
  destruct (Sourceror_compile h es_str (lit "")) as [reports outcome].
  run_state. rewrite for_each_callback. run_state.
  unfold opening.
  destruct outcome as [[wasm_binary | e] | e]; run_state.
  - destruct (existsb is_error reports); run_state.
    + rewrite <- !app_assoc. reflexivity.
    + destruct (WebAssembly_compile wasm_binary) as [x | err]; run_state;
        rewrite <- !app_assoc; reflexivity.
  - rewrite <- !app_assoc. reflexivity.
  - rewrite <- !app_assoc. reflexivity.
Qed.

End CompileFacts.

(* ------------------------------------------------------------------ *)
(** ** compile: the claims *)

Lemma no_error_reports (rs : list Report) :
  Forall (fun r => severity_code r < 4) rs -> existsb is_error rs = false.
Proof.
  induction 1 as [| r rs Hr _ IH]; [reflexivity |].
  cbn [existsb]. rewrite IH, orb_false_r. unfold is_error.
  destruct (Z.geb_spec (severity_code r) 4); [lia | reflexivity].
Qed.

Lemma some_error_report (rs : list Report) :
  Exists (fun r => 4 <= severity_code r) rs -> existsb is_error rs = true.
Proof.
  induction 1 as [r rs Hr | r rs _ IH]; cbn [existsb].
  - unfold is_error. destruct (Z.geb_spec (severity_code r) 4); [reflexivity | lia].
  - rewrite IH. apply orb_true_r.
Qed.

Lemma warnings_only (rs : list Report) :
  Forall (fun r => severity_code r < 4) rs ->
  Forall (fun d => severity d = WARNING) (map diagnostic_of_report rs).
Proof.
  induction 1 as [| r rs Hr _ IH]; constructor; [| exact IH].
  unfold diagnostic_of_report, is_error. cbn [severity].
  destruct (Z.geb_spec (severity_code r) 4); [lia | reflexivity].
Qed.

Section CompileClaims.

Context {host : Host}.

(** C8. When the parser yields no tree, [compile] is rejected with the
    CompileError of the parse failure, makes no call at all (so no
    context is created), and leaves the diagnostic sink as the parser
    left it. *)
Theorem compile_parse_failure (code : jsstring) (w : World)
    (errs : list SourceError) :
  slang_parse code (errors w) = (None, errs) ->
  fst (compile code w)
  = Rejected (CompileError (lit "js-slang cannot parse the program")) /\
  calls (snd (compile code w)) = calls w /\
  count is_create (calls (snd (compile code w))) = count is_create (calls w) /\
  errors (snd (compile code w)) = errs.
Proof.
  intros parsed. rewrite (compile_not_parsed code w errs parsed).
  repeat split.
Qed.

(** Whenever the call of the compile operation returns its promise,
    however that promise settles, the calls [compile] adds contain as
    many [destroy_context] as [create_context]: none of either when
    parsing fails, and exactly one of each, with the same handle and the
    creation first, on every other path.  When the call itself throws,
    the one context that was created is not destroyed. *)
Lemma teardown_by_call_result (code : jsstring) (w : World) :
  exists added : list HostCall,
    calls (snd (compile code w)) = calls w ++ added /\
    match slang_parse code (errors w) with
    | (None, _) => added = []
    | (Some estree, _) =>
        let h := new_context_handle (calls w) in
        match snd (Sourceror_compile h (JSON_stringify estree) (lit "")) with
        | Returns _ =>
            filter (fun c => is_create c || is_destroy c) added
            = [Call_create_context h; Call_destroy_context h]
        | Throws _ =>
            filter (fun c => is_create c || is_destroy c) added
            = [Call_create_context h]
        end
    end.
Proof.
  destruct (slang_parse code (errors w)) as [[estree |] errs] eqn:parsed.
  - pose proof (compile_parsed code w estree errs parsed) as H.
    cbv zeta in H. rewrite H. clear H.
    set (h := new_context_handle (calls w)).
    set (es_str := JSON_stringify estree).
    unfold opening.
    destruct (Sourceror_compile h es_str (lit "")) as [reports outcome].
    cbn [fst snd].
    destruct outcome as [[wasm_binary | e] | e].
    + destruct (existsb is_error reports).
      * eexists. cbn [snd calls]. rewrite <- app_assoc.
        split; reflexivity.
      * destruct (WebAssembly_compile wasm_binary) as [x | err];
          eexists; cbn [snd calls]; rewrite <- app_assoc;
          split; reflexivity.
    + eexists. cbn [snd calls]. rewrite <- app_assoc. split; reflexivity.
    + eexists. cbn [snd calls]. split; reflexivity.
  - rewrite (compile_not_parsed code w errs parsed).
    exists []. cbn [snd calls]. rewrite app_nil_r. split; reflexivity.
Qed.

(** C7. When parsing yields a tree, the compiler yields bytes and
    invokes the callback only with severity codes below 4, and the host
    accepts the bytes, [compile] is fulfilled with the module the host
    made, and what it appended to the sink is one diagnostic per callback
    invocation, each of Warning severity. *)
Theorem compile_success (code : jsstring) (w : World)
    (estree : Program) (errs : list SourceError)
    (reports : list Report) (wasm_binary : list byte) (x : WasmModule) :
  slang_parse code (errors w) = (Some estree, errs) ->
  Sourceror_compile (new_context_handle (calls w)) (JSON_stringify estree)
    (lit "") = (reports, Returns (Fulfilled wasm_binary)) ->
  Forall (fun r => severity_code r < 4) reports ->
  WebAssembly_compile wasm_binary = Fulfilled x ->
  fst (compile code w) = Fulfilled (IsModule x) /\
  exists appended : list SourceError,
    errors (snd (compile code w)) = errs ++ appended /\
    appended = map diagnostic_of_report reports /\
    Forall (fun d => severity d = WARNING) appended.
Proof.
  intros parsed compiled Hsev Hval.
  pose proof (compile_parsed code w estree errs parsed) as H.
  cbv zeta in H. rewrite H. clear H.
  rewrite compiled. cbn [fst snd].
  rewrite (no_error_reports reports Hsev), Hval. cbn [fst snd errors].
  split; [reflexivity |].
  eexists. split; [reflexivity |]. split; [reflexivity |].
  now apply warnings_only.
Qed.

(** Bytes and a report with a severity code of 4 or more: the promise
    is fulfilled, with the CompileError as its value; the host is not
    asked to validate. *)
Lemma compile_syntax_error (code : jsstring) (w : World)
    (estree : Program) (errs : list SourceError)
    (reports : list Report) (wasm_binary : list byte) :
  slang_parse code (errors w) = (Some estree, errs) ->
  Sourceror_compile (new_context_handle (calls w)) (JSON_stringify estree)
    (lit "") = (reports, Returns (Fulfilled wasm_binary)) ->
  Exists (fun r => 4 <= severity_code r) reports ->
  compile code w
  = (Fulfilled (IsError (CompileError (lit "Syntax error"))),
     mkWorld (errs ++ map diagnostic_of_report reports)
       (opening (calls w) (new_context_handle (calls w))
          (JSON_stringify estree)
        ++ [Call_destroy_context (new_context_handle (calls w))])).
Proof.
  intros parsed compiled Hsev.
  pose proof (compile_parsed code w estree errs parsed) as H.
  cbv zeta in H. rewrite H. clear H.
  rewrite compiled. cbn [fst snd].
  now rewrite (some_error_report reports Hsev).
Qed.

(** Bytes the host refuses, with no report of severity 4 or more: the
    validation diagnostic is appended, and the promise is fulfilled, with
    the CompileError as its value. *)
Lemma compile_validation_error (code : jsstring) (w : World)
    (estree : Program) (errs : list SourceError)
    (reports : list Report) (wasm_binary : list byte) (err : jsstring) :
  slang_parse code (errors w) = (Some estree, errs) ->
  Sourceror_compile (new_context_handle (calls w)) (JSON_stringify estree)
    (lit "") = (reports, Returns (Fulfilled wasm_binary)) ->
  Forall (fun r => severity_code r < 4) reports ->
  WebAssembly_compile wasm_binary = Rejected err ->
  compile code w
  = (Fulfilled (IsError (CompileError (lit "WebAssembly compilation error"))),
     mkWorld (errs ++ map diagnostic_of_report reports
              ++ [validation_diagnostic err])
       (opening (calls w) (new_context_handle (calls w))
          (JSON_stringify estree)
        ++ [Call_WebAssembly_compile wasm_binary;
            Call_destroy_context (new_context_handle (calls w))])).
Proof.
  intros parsed compiled Hsev Hval.
  pose proof (compile_parsed code w estree errs parsed) as H.
  cbv zeta in H. rewrite H. clear H.
  rewrite compiled. cbn [fst snd].
  rewrite (no_error_reports reports Hsev), Hval.
  now rewrite <- app_assoc.
Qed.

(** With a tree and a compile operation whose call returns, [compile]
    is never rejected. *)
Lemma compile_parsed_never_rejected (code : jsstring) (w : World)
    (estree : Program) (errs : list SourceError)
    (p : Settled HostFailure (list byte)) :
  slang_parse code (errors w) = (Some estree, errs) ->
  snd (Sourceror_compile (new_context_handle (calls w))
         (JSON_stringify estree) (lit "")) = Returns p ->
  exists v, fst (compile code w) = Fulfilled v.
Proof.
  intros parsed called.
  pose proof (compile_parsed code w estree errs parsed) as H.
  cbv zeta in H. rewrite H, called. clear H.
  destruct p as [wasm_binary | e]; [| eexists; reflexivity].
  destruct (existsb _ _); [eexists; reflexivity |].
  destruct (WebAssembly_compile wasm_binary); eexists; reflexivity.
Qed.

End CompileClaims.

Lemma compile_parse_failure_witness :
  slang_parse (Host := Scenario.host) (lit "") [] = (None, [Scenario.parse_diagnostic]) /\
  fst (compile (host := Scenario.host) (lit "") Scenario.empty_world)
  = Rejected (CompileError (lit "js-slang cannot parse the program")) /\
  calls (snd (compile (host := Scenario.host) (lit "") Scenario.empty_world)) = [].
Proof.
  split; [reflexivity |].
  pose proof (compile_parse_failure (host := Scenario.host) (lit "")
                Scenario.empty_world [Scenario.parse_diagnostic] eq_refl) as H.
  split; [exact (proj1 H) | exact (proj1 (proj2 H))].
Defined.

Lemma compile_success_witness :
  fst (compile (host := Scenario.host) (lit "warn") Scenario.empty_world)
  = Fulfilled (IsModule Scenario.the_module) /\
  exists appended,
    errors (snd (compile (host := Scenario.host) (lit "warn")
                   Scenario.empty_world)) = [] ++ appended /\
    appended = map diagnostic_of_report [Scenario.unused] /\
    Forall (fun d => severity d = WARNING) appended.
Proof.
  apply (compile_success (host := Scenario.host) (lit "warn")
           Scenario.empty_world (lit "warn") [] [Scenario.unused]
           Scenario.good_bytes Scenario.the_module).
  - reflexivity.
  - reflexivity.
  - constructor; [vm_compute; reflexivity | constructor].
  - reflexivity.
Defined.

(** C1, on the code.  The compiler reports severity code 4 for the
    program "error" and yields bytes all the same: the host is not asked
    to validate, the context is destroyed and no module is returned, but
    the promise of [compile] is fulfilled with the CompileError as its
    value, where the claim has it rejected. *)
Theorem compile_syntax_error_is_fulfilled :
  Sourceror_compile (Host := Scenario.host) 1 (lit "error") (lit "")
  = ([Scenario.unused; Scenario.undeclared],
     Returns (Fulfilled Scenario.good_bytes)) /\
  severity_code Scenario.undeclared = 4 /\
  compile (host := Scenario.host) (lit "error") Scenario.empty_world
  = (Fulfilled (IsError (CompileError (lit "Syntax error"))),
     mkWorld [diagnostic_of_report Scenario.unused;
              diagnostic_of_report Scenario.undeclared]
       [Call_create_context 1;
        Call_Sourceror_compile 1 (lit "error") (lit "");
        Call_destroy_context 1]) /\
  count is_validation
    (calls (snd (compile (host := Scenario.host) (lit "error")
                   Scenario.empty_world))) = 0%nat /\
  fst (compile (host := Scenario.host) (lit "error") Scenario.empty_world)
  <> Rejected (CompileError (lit "Syntax error")).
Proof.
  split; [reflexivity |]. split; [reflexivity |].
  assert (compile (host := Scenario.host) (lit "error") Scenario.empty_world
          = (Fulfilled (IsError (CompileError (lit "Syntax error"))),
             mkWorld [diagnostic_of_report Scenario.unused;
                      diagnostic_of_report Scenario.undeclared]
               [Call_create_context 1;
                Call_Sourceror_compile 1 (lit "error") (lit "");
                Call_destroy_context 1])) as H.
  { rewrite (compile_syntax_error (host := Scenario.host) (lit "error")
               Scenario.empty_world (lit "error") []
               [Scenario.unused; Scenario.undeclared] Scenario.good_bytes).
    - reflexivity.
    - reflexivity.
    - reflexivity.
    - apply Exists_cons_tl, Exists_cons_hd. vm_compute. discriminate. }
  split; [exact H |]. rewrite H. split; [reflexivity | discriminate].
Qed.

(** C4, on the code.  The compiler reports nothing for the program
    "garbage" and yields bytes the host refuses: the validation
    diagnostic is the one entry appended, but the promise of [compile] is
    fulfilled with the CompileError as its value, where the claim has it
    rejected. *)
Theorem compile_validation_error_is_fulfilled :
  Sourceror_compile (Host := Scenario.host) 1 (lit "garbage") (lit "")
  = ([], Returns (Fulfilled Scenario.bad_bytes)) /\
  WebAssembly_compile (Host := Scenario.host) Scenario.bad_bytes
  = Rejected (lit "CompileError: expected magic word 00 61 73 6d") /\
  compile (host := Scenario.host) (lit "garbage") Scenario.empty_world
  = (Fulfilled (IsError (CompileError (lit "WebAssembly compilation error"))),
     mkWorld
       [mkSourceError SYNTAX ERROR
          (mkLocation (mkPosition 0 0) (mkPosition 0 0))
          (lit "CompileError: expected magic word 00 61 73 6d")
          (lit "Your browser's WebAssembly engine is unable to compile the WebAssembly binary produced by Sourceror.  This is probably a bug in Sourceror; please report it.")]
       [Call_create_context 1;
        Call_Sourceror_compile 1 (lit "garbage") (lit "");
        Call_WebAssembly_compile Scenario.bad_bytes;
        Call_destroy_context 1]) /\
  fst (compile (host := Scenario.host) (lit "garbage") Scenario.empty_world)
  <> Rejected (CompileError (lit "WebAssembly compilation error")).
Proof.
  split; [reflexivity |]. split; [reflexivity |].
  assert (compile (host := Scenario.host) (lit "garbage") Scenario.empty_world
          = (Fulfilled
               (IsError (CompileError (lit "WebAssembly compilation error"))),
             mkWorld
               [validation_diagnostic
                  (lit "CompileError: expected magic word 00 61 73 6d")]
               [Call_create_context 1;
                Call_Sourceror_compile 1 (lit "garbage") (lit "");
                Call_WebAssembly_compile Scenario.bad_bytes;
                Call_destroy_context 1])) as H.
  { rewrite (compile_validation_error (host := Scenario.host) (lit "garbage")
               Scenario.empty_world (lit "garbage") [] []
               Scenario.bad_bytes
               (lit "CompileError: expected magic word 00 61 73 6d")).
    - reflexivity.
    - reflexivity.
    - reflexivity.
    - constructor.
    - reflexivity. }
  split; [exact H |]. rewrite H. discriminate.
Qed.

(** C2, on the code.  Nothing encloses the call of the compile
    operation at line 51: when that call throws instead of returning its
    promise (here after one callback invocation, on the program "abort"),
    neither handler of the chain runs, so the context that was created is
    never destroyed, one [create_context] against no [destroy_context],
    and [compile] is rejected with what was thrown.  The claim has the
    context destroyed exactly once on an unexpected failure of the
    compile operation, as the two handlers do on every settled promise. *)
Theorem compile_throw_leaks_context :
  slang_parse (Host := Scenario.host) (lit "abort") []
  = (Some (lit "abort"), []) /\
  Sourceror_compile (Host := Scenario.host) 1 (lit "abort") (lit "")
  = ([Scenario.unused], Throws (WasmRuntimeError (lit "unreachable"))) /\
  compile (host := Scenario.host) (lit "abort") Scenario.empty_world
  = (Rejected (HostError (WasmRuntimeError (lit "unreachable"))),
     mkWorld [diagnostic_of_report Scenario.unused]
       [Call_create_context 1;
        Call_Sourceror_compile 1 (lit "abort") (lit "")]) /\
  count is_create
    (calls (snd (compile (host := Scenario.host) (lit "abort")
                   Scenario.empty_world))) = 1%nat /\
  count is_destroy
    (calls (snd (compile (host := Scenario.host) (lit "abort")
                   Scenario.empty_world))) = 0%nat.
Proof.
  split; [reflexivity |]. split; [reflexivity |].
  assert (compile (host := Scenario.host) (lit "abort") Scenario.empty_world
          = (Rejected (HostError (WasmRuntimeError (lit "unreachable"))),
             mkWorld [diagnostic_of_report Scenario.unused]
               [Call_create_context 1;
                Call_Sourceror_compile 1 (lit "abort") (lit "")])) as H.
  { pose proof (compile_parsed (host := Scenario.host) (lit "abort")
                  Scenario.empty_world (lit "abort") [] eq_refl) as P.
    cbv zeta in P. rewrite P. reflexivity. }
  split; [exact H |]. rewrite H. split; reflexivity.
Qed.

(* ------------------------------------------------------------------ *)
(** ** run: the fault import *)

Lemma core_error_throws (code detail file line column : Z) (w : World) :
  core_error code detail file line column w
  = (Threw propagationToken, push (fault_diagnostic code line column) w).
Proof.
  unfold core_error, fault_diagnostic.
  destruct (stringifySourcerorRuntimeErrorCode code) as [explain elaborate].
  reflexivity.
Qed.

Lemma report_no_faults (w : World) : report_faults [] w = w.
Proof.
  destruct w as [errs cs]. unfold report_faults. cbn [errors calls map].
  now rewrite app_nil_r.
Qed.

(** Brings two worlds built by appending diagnostics to one shape. *)
Ltac same_world :=
  unfold report_faults, push, diagnostic_of_fault; cbn [errors calls];
  repeat first [rewrite map_app | rewrite <- app_assoc
               | progress cbn [map app]];
  reflexivity.

(** Execution against the fault import of [run], by the way the function
    ends: every invocation the module caught has appended its diagnostic,
    and so has the one that unwinds the function, if any. *)
Lemma exec_ending (p : WasmCode) :
  forall (m : Memory) (w : World),
    exec core_error p m w
    = match ending p m with
      | (cs, Ends m') => (Returned, m', report_faults cs w)
      | (cs, Faults code detail file line column m') =>
          (Threw propagationToken, m',
           push (fault_diagnostic code line column) (report_faults cs w))
      | (cs, Fails e m') => (Trapped e, m', report_faults cs w)
      end.
Proof.
  induction p as [| addr b k IH | addr k IH | c d f l col k IH
                  | body IHbody handler IHhandler k IHk | msg];
    intros m w; cbn [exec ending].
  - now rewrite report_no_faults.
  - destruct (in_bounds m addr); [apply IH | now rewrite report_no_faults].
  - destruct (in_bounds m addr); [apply IH | now rewrite report_no_faults].
  - now rewrite core_error_throws, report_no_faults.
  - rewrite IHbody.
    destruct (ending body m) as [cs [m1 | c1 d1 f1 l1 col1 m1 | e1 m1]].
    + rewrite IHk.
      destruct (ending k m1) as [cs' [m2 | c2 d2 f2 l2 col2 m2 | e2 m2]];
        f_equal; same_world.
    + rewrite IHhandler.
      destruct (ending handler m1)
        as [cs' [m2 | c2 d2 f2 l2 col2 m2 | e2 m2]].
      * rewrite IHk.
        destruct (ending k m2) as [cs'' [m3 | c3 d3 f3 l3 col3 m3 | e3 m3]];
          f_equal; same_world.
      * f_equal. same_world.
      * f_equal. same_world.
    + reflexivity.
  - now rewrite report_no_faults.
Qed.

(** What follows a call of the import that nothing in the module catches
    never runs. *)
Lemma exec_after_fault (code detail file line column : Z)
    (k k' : WasmCode) (m : Memory) (w : World) :
  exec core_error (CallError code detail file line column k) m w
  = exec core_error (CallError code detail file line column k') m w.
Proof.
  cbn [exec]. now rewrite core_error_throws.
Qed.

Section RunClaims.

Context {host : Host}.

(** Instantiation when the start function returns: the instance holds
    the memory the start function left. *)
Lemma instantiate_started (wasm_module : WasmModule) (linked : Instance)
    (w : World) (caught0 : list FaultCall) (m0 : Memory) :
  WebAssembly_instantiate wasm_module = Fulfilled linked ->
  ending (start_function linked) (linear_memory linked) = (caught0, Ends m0) ->
  do_instantiate wasm_module w
  = (Fulfilled (mkInstance m0 Ret (main linked)),
     report_faults caught0 (record_call Call_instantiate w)).
Proof.
  intros Hlink Hstart. unfold do_instantiate.
  now rewrite Hlink, exec_ending, Hstart.
Qed.

(** C5, as the code has it.  When the entry point calls the fault import
    and no [try] of the module catches what the import throws, [run] is
    rejected with RuntimeError("runtime error").  That invocation, like
    each one the module caught before it, has appended exactly its one
    diagnostic, of kind Runtime and severity Error, located at
    (line, column)-(line, column+1), with the explain and elaborate texts
    the table gives for the code; the call unwinds with the private
    token, so the memory is left as it was at the call, whatever follows
    the call in the program is without effect, and [read_js_result] is
    not called. *)
Theorem run_fault (wasm_module : WasmModule) (linked : Instance)
    (w : World) (caught0 caught : list FaultCall) (m0 m' : Memory)
    (code detail file line column : Z) :
  WebAssembly_instantiate wasm_module = Fulfilled linked ->
  ending (start_function linked) (linear_memory linked) = (caught0, Ends m0) ->
  ending (main linked) m0
  = (caught, Faults code detail file line column m') ->
  let d :=
    mkSourceError RUNTIME ERROR
      (mkLocation (mkPosition line column) (mkPosition line (column + 1)))
      (fst (stringifySourcerorRuntimeErrorCode code))
      (snd (stringifySourcerorRuntimeErrorCode code)) in
  run wasm_module w
  = (Rejected (RuntimeError (lit "runtime error")),
     mkWorld
       (errors w ++ map diagnostic_of_fault caught0
        ++ map diagnostic_of_fault caught ++ [d])
       (calls w ++ [Call_instantiate; Call_main])) /\
  count is_decode [Call_instantiate; Call_main] = 0%nat /\
  (forall w0,
     exec core_error (main linked) m0 w0
     = (Threw propagationToken, m', push d (report_faults caught w0))) /\
  (forall k k' m w0,
     exec core_error (CallError code detail file line column k) m w0
     = exec core_error (CallError code detail file line column k') m w0).
Proof.
  intros Hlink Hstart Hmain d.
  assert (forall w0,
            exec core_error (main linked) m0 w0
            = (Threw propagationToken, m', push d (report_faults caught w0)))
    as Hexec.
  { intros w0. now rewrite exec_ending, Hmain. }
  split; [| split; [reflexivity | split; [exact Hexec |]]].
  - unfold run, bind.
    rewrite (instantiate_started wasm_module linked w caught0 m0 Hlink Hstart).
    cbn [then_]. unfold on_instance. cbn [main linear_memory].
    rewrite Hexec. cbn [on_catch]. unfold ret.
    f_equal. unfold record_call. subst d. unfold fault_diagnostic.
    same_world.
  - intros k k' m w0. apply exec_after_fault.
Qed.

End RunClaims.

Lemma run_fault_witness :
  run (host := Scenario.host) Scenario.the_module Scenario.empty_world
  = (Rejected (RuntimeError (lit "runtime error")),
     mkWorld
       [mkSourceError RUNTIME ERROR
          (mkLocation (mkPosition 7 3) (mkPosition 7 4))
          (lit "Out of memory")
          (lit "Strings and objects are allocated on the heap.  You have exhausted the available heap space.  Try recompiling your program with increased heap space.")]
       [Call_instantiate; Call_main]).
Proof.
  exact (proj1 (run_fault (host := Scenario.host) Scenario.the_module
                  Scenario.the_module Scenario.empty_world [] []
                  (memory_of (2^20) [])
                  (store (memory_of (2^20) []) 100 x2a) 1 0 0 7 3
                  eq_refl eq_refl eq_refl)).
Defined.

(** C5, as stated, fails on two modules.  The first calls the import
    inside a [try] with a [catch_all], then stores the boolean true and
    returns: the diagnostic is appended, but execution goes on past the
    fault site, the decoder is called and [run] is fulfilled.  The second
    calls the import from its start function: the diagnostic is appended,
    but [run] is rejected with the token itself, not with a
    RuntimeError. *)
Lemma run_fault_not_always_fatal :
  run (host := Scenario.host) Programs.catching Scenario.empty_world
  = (Fulfilled (VBoolean true),
     mkWorld [fault_diagnostic 1 7 3]
       [Call_instantiate; Call_main; Call_read_js_result]) /\
  run (host := Scenario.host) Programs.faulting_start Scenario.empty_world
  = (Rejected TheToken,
     mkWorld [fault_diagnostic 1 2 9] [Call_instantiate]).
Proof. vm_compute. split; reflexivity. Qed.

(** The statements after the fault site of the scenario's module would
    have stored the boolean true; run without the call they do, and with
    it the tag word is untouched. *)
Example after_the_fault_site :
  (let '(_, m, _) :=
     exec core_error
       (Store 100 x2a (Store (2^20 - 12) x03 (Store (2^20 - 8) x01 Ret)))
       (memory_of (2^20) []) Scenario.empty_world in
   read_js_result m) = Normal (VBoolean true) /\
  (let '(_, m, _) :=
     exec core_error Scenario.faulting (memory_of (2^20) [])
       Scenario.empty_world in
   (byteAt m 100, tag_of m)) = (x2a, 0).
Proof. vm_compute. split; reflexivity. Qed.

(* ------------------------------------------------------------------ *)
(** ** Texts that come back as strings *)

Lemma byte_of_Z_value (z : Z) :
  0 <= z < 256 -> byte_value (byte_of_Z z) = z.
Proof.
  intros Hz. unfold byte_value, byte_of_Z.
  destruct (Byte.of_N (Z.to_N z)) as [b |] eqn:E.
  - apply Byte.to_of_N in E. lia.
  - apply Byte.of_N_None_iff in E. lia.
Qed.

Lemma le_bytes_value (n : nat) :
  forall v, 0 <= v < 256 ^ Z.of_nat n -> le_value (le_bytes n v) = v.
Proof.
  induction n as [| n IH]; intros v Hv.
  - cbn in *. lia.
  - rewrite Nat2Z.inj_succ, Z.pow_succ_r in Hv by lia.
    cbn [le_bytes]. rewrite le_value_cons.
    fold (byte_value (byte_of_Z (v mod 256))).
    rewrite byte_of_Z_value by (apply Z.mod_pos_bound; lia).
    rewrite IH.
    + pose proof (Z.div_mod v 256). lia.
    + split; [apply Z.div_pos; lia |].
      apply Z.div_lt_upper_bound; lia.
Qed.

Lemma is_ascii_text_Forall (s : jsstring) :
  is_ascii_text s = true <-> Forall (fun c => 0 <= c < 128) s.
Proof.
  unfold is_ascii_text. rewrite forallb_forall, Forall_forall.
  split; intros H c Hc; specialize (H c Hc).
  - apply andb_true_iff in H. lia.
  - apply andb_true_iff. lia.
Qed.

Lemma text_bytes_values (s : jsstring) :
  is_ascii_text s = true -> map byte_value (text_bytes s) = s.
Proof.
  rewrite is_ascii_text_Forall. unfold text_bytes.
  induction 1 as [| c s Hc _ IH]; [reflexivity |].
  cbn [map]. rewrite IH, byte_of_Z_value by lia. reflexivity.
Qed.

Lemma run_ascii (bs : list byte) :
  Forall (fun b => byte_value b < 128) bs ->
  TextDecoder.run TextDecoder.start bs = map byte_value bs.
Proof.
  induction 1 as [| b bs Hb _ IH]; [reflexivity |].
  cbn [TextDecoder.run map].
  assert (TextDecoder.step TextDecoder.start (Z.of_N (Byte.to_N b))
          = ([byte_value b], TextDecoder.start)) as ->.
  { unfold TextDecoder.step, TextDecoder.lead. cbn [TextDecoder.bytes_needed TextDecoder.start Z.eqb].
    fold (byte_value b).
    destruct (Z.leb_spec (byte_value b) 127); [reflexivity | lia]. }
  now rewrite IH.
Qed.

Lemma strip_bom_ascii (l : list Z) :
  Forall (fun c => 0 <= c < 128) l -> TextDecoder.strip_bom l = l.
Proof.
  intros H. destruct H as [| c l Hc _]; [reflexivity |].
  unfold TextDecoder.strip_bom.
  destruct (Z.eqb_spec c 65279); [lia | reflexivity].
Qed.

Lemma utf16_ascii (l : list Z) :
  Forall (fun c => 0 <= c < 128) l -> flat_map TextDecoder.utf16 l = l.
Proof.
  induction 1 as [| c l Hc _ IH]; [reflexivity |].
  cbn [flat_map]. rewrite IH. unfold TextDecoder.utf16.
  destruct (Z.ltb_spec c 65536); [reflexivity | lia].
Qed.

(** Decoding the bytes of an ASCII text gives the text back. *)
Lemma decode_text_bytes (s : jsstring) :
  is_ascii_text s = true -> TextDecoder.decode (text_bytes s) = s.
Proof.
  intros Hs. unfold TextDecoder.decode.
  pose proof (text_bytes_values s Hs) as Hv.
  pose proof (proj1 (is_ascii_text_Forall s) Hs) as HF.
  rewrite run_ascii.
  - rewrite Hv, strip_bom_ascii, utf16_ascii by assumption. reflexivity.
  - rewrite <- Hv in HF. rewrite Forall_map in HF.
    eapply Forall_impl; [| exact HF]. cbv beta. intros; lia.
Qed.

Lemma bytes_from_list (m : Memory) (l : list byte) :
  forall off,
    (forall i, (i < List.length l)%nat ->
               byteAt m (off + Z.of_nat i) = nth i l x00) ->
    bytes_from m off (List.length l) = l.
Proof.
  induction l as [| b l IH]; intros off H; [reflexivity |].
  cbn [List.length bytes_from]. f_equal.
  - specialize (H 0%nat). cbn [nth] in H. rewrite Z.add_0_r in H.
    apply H. cbn. lia.
  - apply IH. intros i Hi.
    specialize (H (S i)). cbn [nth] in H.
    rewrite Nat2Z.inj_succ in H.
    replace (off + 1 + Z.of_nat i) with (off + Z.succ (Z.of_nat i)) by lia.
    apply H. cbn. lia.
Qed.

Section StringMemory.

Variable bs : list byte.
Hypothesis short : Z.of_nat (List.length bs) < 2^32.

Lemma string_memory_byte (i : nat) :
  (i < 4 + List.length bs)%nat ->
  byteAt (string_memory bs) (2^20 + Z.of_nat i)
  = nth i (le_bytes 4 (Z.of_nat (List.length bs)) ++ bs) x00.
Proof.
  intros Hi. unfold string_memory, memory_of. cbn [byteAt lookup_cell].
  cbn [List.length le_bytes].
  destruct (Z.leb_spec (2^20 - 12) (2^20 + Z.of_nat i));
    destruct (Z.ltb_spec (2^20 + Z.of_nat i) (2^20 - 12 + Z.of_nat 4));
    try lia; cbn [andb].
  destruct (Z.leb_spec (2^20 - 8) (2^20 + Z.of_nat i));
    destruct (Z.ltb_spec (2^20 + Z.of_nat i) (2^20 - 8 + Z.of_nat 4));
    try lia; cbn [andb].
  fold (le_bytes 4 (Z.of_nat (List.length bs))).
  rewrite length_app. cbn [List.length le_bytes].
  destruct (Z.leb_spec (2^20) (2^20 + Z.of_nat i));
    destruct (Z.ltb_spec (2^20 + Z.of_nat i)
                (2^20 + Z.of_nat (4 + List.length bs)));
    try lia; cbn [andb].
  replace (2^20 + Z.of_nat i - 2^20) with (Z.of_nat i) by lia.
  rewrite Nat2Z.id. reflexivity.
Qed.

Lemma string_memory_tag : tag_of (string_memory bs) = 4.
Proof. vm_compute. reflexivity. Qed.

Lemma string_memory_pointer : string_pointer (string_memory bs) = 2^20.
Proof. vm_compute. reflexivity. Qed.

Lemma string_memory_length :
  string_length (string_memory bs) = Z.of_nat (List.length bs).
Proof.
  unfold string_length. rewrite string_memory_pointer.
  rewrite <- le_value_4.
  assert (bytes_from (string_memory bs) (2^20) 4
          = le_bytes 4 (Z.of_nat (List.length bs))) as ->.
  { change 4%nat with (List.length (le_bytes 4 (Z.of_nat (List.length bs)))).
    apply bytes_from_list. intros i Hi.
    cbn [List.length le_bytes] in Hi.
    rewrite string_memory_byte by lia.
    rewrite app_nth1 by (cbn [List.length le_bytes]; lia).
    reflexivity. }
  apply le_bytes_value. change (256 ^ Z.of_nat 4) with (2^32). lia.
Qed.

Lemma string_memory_bytes :
  bytes_from (string_memory bs) (2^20 + 4) (List.length bs) = bs.
Proof.
  apply bytes_from_list. intros i Hi.
  replace (2^20 + 4 + Z.of_nat i) with (2^20 + Z.of_nat (4 + i)) by lia.
  rewrite string_memory_byte by lia.
  rewrite app_nth2 by (cbn [List.length le_bytes]; lia).
  cbn [List.length le_bytes]. f_equal. lia.
Qed.

(** The memory built around [bs] is a tag-4 result that decodes [bs]. *)
Lemma read_string_memory :
  2^20 <= byteLength (string_memory bs) /\
  tag_of (string_memory bs) = 4 /\
  read_js_result (string_memory bs) = Normal (VString (TextDecoder.decode bs)).
Proof.
  assert (2^20 <= byteLength (string_memory bs)) as Hm.
  { unfold string_memory, memory_of. cbn [byteLength]. lia. }
  split; [exact Hm |]. split; [exact string_memory_tag |].
  rewrite read_tag_4.
  - rewrite string_memory_pointer, string_memory_length, Nat2Z.id.
    now rewrite string_memory_bytes.
  - exact Hm.
  - exact string_memory_tag.
  - rewrite string_memory_pointer, string_memory_length.
    unfold string_memory, memory_of. cbn [byteLength]. lia.
Qed.

End StringMemory.

(** *** The decimal text of a tag *)

Lemma digits_ascii (d : Decimal.uint) :
  is_ascii_text (lit (NilEmpty.string_of_uint d)) = true.
Proof.
  induction d; [reflexivity | ..];
    cbn [NilEmpty.string_of_uint]; unfold lit in *;
    cbn [list_ascii_of_string map]; unfold is_ascii_text in *;
    cbn [forallb]; rewrite IHd; reflexivity.
Qed.

Lemma digits_length (d : Decimal.uint) :
  List.length (lit (NilEmpty.string_of_uint d)) = Decimal.nb_digits d.
Proof.
  induction d; [reflexivity | ..];
    cbn [NilEmpty.string_of_uint Decimal.nb_digits]; unfold lit in *;
    cbn [list_ascii_of_string map List.length]; now rewrite IHd.
Qed.

Lemma nb_digits_double (d : Decimal.uint) :
  (Decimal.nb_digits (Decimal.Little.double d) <= S (Decimal.nb_digits d)
   /\ Decimal.nb_digits (Decimal.Little.succ_double d)
      <= S (Decimal.nb_digits d))%nat.
Proof.
  induction d as [| d [IH1 IH2] | d [IH1 IH2] | d [IH1 IH2] | d [IH1 IH2]
                  | d [IH1 IH2] | d [IH1 IH2] | d [IH1 IH2] | d [IH1 IH2]
                  | d [IH1 IH2] | d [IH1 IH2]];
    cbn [Decimal.Little.double Decimal.Little.succ_double Decimal.nb_digits];
    lia.
Qed.

Lemma nb_digits_little (p : positive) :
  (Decimal.nb_digits (Pos.to_little_uint p) <= Pos.size_nat p)%nat.
Proof.
  induction p as [p IH | p IH |]; cbn [Pos.to_little_uint Pos.size_nat].
  - pose proof (proj2 (nb_digits_double (Pos.to_little_uint p))). lia.
  - pose proof (proj1 (nb_digits_double (Pos.to_little_uint p))). lia.
  - cbn. lia.
Qed.

Lemma Number_toString_ascii (t : Z) : is_ascii_text (Number_toString t) = true.
Proof.
  unfold Number_toString, NilZero.string_of_uint.
  destruct (N.to_uint (Z.to_N t)); try apply digits_ascii. reflexivity.
Qed.

Lemma size_nat_bound (p : positive) :
  forall n : nat, Z.pos p < 2 ^ Z.of_nat n -> (Pos.size_nat p <= n)%nat.
Proof.
  induction p as [p IH | p IH |]; intros n H;
    (destruct n as [| n]; [cbn in H; lia |]);
    rewrite Nat2Z.inj_succ, Z.pow_succ_r in H by lia;
    cbn [Pos.size_nat].
  - rewrite Pos2Z.inj_xI in H. apply le_n_S, IH. lia.
  - rewrite Pos2Z.inj_xO in H. apply le_n_S, IH. lia.
  - lia.
Qed.

Lemma nb_digits_uint32 (t : Z) :
  0 <= t < 2^32 -> (Decimal.nb_digits (N.to_uint (Z.to_N t)) <= 32)%nat.
Proof.
  intros Ht. destruct t as [| p | p].
  - cbn. lia.
  - cbn [Z.to_N N.to_uint]. unfold Pos.to_uint.
    rewrite DecimalFacts.nb_digits_rev.
    apply Nat.le_trans with (Pos.size_nat p); [apply nb_digits_little |].
    apply size_nat_bound. exact (proj2 Ht).
  - lia.
Qed.

Lemma Number_toString_length (t : Z) :
  0 <= t < 2^32 -> (List.length (Number_toString t) <= 32)%nat.
Proof.
  intros Ht. unfold Number_toString.
  pose proof (nb_digits_uint32 t Ht) as Hd.
  unfold NilZero.string_of_uint.
  destruct (N.to_uint (Z.to_N t)) eqn:E;
    try (rewrite digits_length; exact Hd).
  cbn. lia.
Qed.

Lemma marker_text_ascii (t : Z) : is_ascii_text (marker_text t) = true.
Proof.
  unfold marker_text.
  destruct (t =? 0); [reflexivity |].
  destruct (t =? 5); [reflexivity |].
  unfold invalid_tag_text, is_ascii_text.
  rewrite !forallb_app. fold (is_ascii_text (Number_toString t)).
  rewrite Number_toString_ascii. reflexivity.
Qed.

Lemma marker_text_length (t : Z) :
  0 <= t < 2^32 -> Z.of_nat (List.length (marker_text t)) < 2^32.
Proof.
  intros Ht. unfold marker_text.
  destruct (t =? 0); [vm_compute; reflexivity |].
  destruct (t =? 5); [vm_compute; reflexivity |].
  unfold invalid_tag_text. rewrite !length_app.
  pose proof (Number_toString_length t Ht).
  change (List.length (lit "(struct or invalid type (")) with 25%nat.
  change (List.length (lit ") was returned)")) with 15%nat.
  lia.
Qed.

(** Every ASCII text shorter than 2^32 is the result of some tag-4
    memory. *)
Lemma text_has_string_memory (s : jsstring) :
  is_ascii_text s = true -> Z.of_nat (List.length s) < 2^32 ->
  2^20 <= byteLength (string_memory (text_bytes s)) /\
  tag_of (string_memory (text_bytes s)) = 4 /\
  read_js_result (string_memory (text_bytes s)) = Normal (VString s).
Proof.
  intros Hs Hlen.
  assert (Z.of_nat (List.length (text_bytes s)) < 2^32) as Hb
    by (unfold text_bytes; now rewrite length_map).
  destruct (read_string_memory (text_bytes s) Hb) as (Hm & Ht & Hr).
  split; [exact Hm |]. split; [exact Ht |].
  now rewrite Hr, decode_text_bytes.
Qed.

(** C10. For the tags 0 and 5 and for every tag outside 0..5 the
    decoder returns an ordinary host string: "(unassigned variable was
    returned)", "(function was returned)", or the text that embeds the
    tag in decimal.  A memory with tag 4 whose string has the same
    content decodes to the very same result, so the result does not
    determine the tag. *)
Theorem marker_results_are_strings (m : Memory) :
  2^20 <= byteLength m ->
  tag_of m = 0 \/ tag_of m = 5 \/ ~ 0 <= tag_of m <= 5 ->
  read_js_result m = Normal (VString (marker_text (tag_of m))) /\
  marker_text 0 = lit "(unassigned variable was returned)" /\
  marker_text 5 = lit "(function was returned)" /\
  (~ 0 <= tag_of m <= 5 ->
   marker_text (tag_of m)
   = lit "(struct or invalid type (" ++ Number_toString (tag_of m)
     ++ lit ") was returned)") /\
  exists m4 : Memory,
    2^20 <= byteLength m4 /\ tag_of m4 = 4 /\ tag_of m4 <> tag_of m /\
    read_js_result m4 = read_js_result m.
Proof.
  intros Hm Htag.
  assert (read_js_result m = Normal (VString (marker_text (tag_of m)))) as Hr.
  { unfold marker_text. destruct Htag as [H | [H | H]].
    - rewrite H. now apply read_tag_0.
    - rewrite H. now apply read_tag_5.
    - destruct (Z.eqb_spec (tag_of m) 0); [lia |].
      destruct (Z.eqb_spec (tag_of m) 5); [lia |].
      now apply read_tag_other. }
  split; [exact Hr |]. split; [reflexivity |]. split; [reflexivity |].
  split.
  - intros H. unfold marker_text.
    destruct (Z.eqb_spec (tag_of m) 0); [lia |].
    destruct (Z.eqb_spec (tag_of m) 5); [lia |]. reflexivity.
  - pose proof (uint32_le_at_range m (2^20 - 12)) as Hrange.
    fold (tag_of m) in Hrange.
    destruct (text_has_string_memory (marker_text (tag_of m))
                (marker_text_ascii _) (marker_text_length _ Hrange))
      as (H4m & H4t & H4r).
    exists (string_memory (text_bytes (marker_text (tag_of m)))).
    split; [exact H4m |]. split; [exact H4t |]. split; [lia |].
    now rewrite H4r, Hr.
Qed.

Lemma marker_results_are_strings_witness :
  2^20 <= byteLength memory_tag99 /\
  tag_of memory_tag99 = 99 /\
  read_js_result memory_tag99
  = Normal (VString (lit "(struct or invalid type (99) was returned)")) /\
  exists m4 : Memory,
    tag_of m4 = 4 /\ read_js_result m4 = read_js_result memory_tag99.
Proof.
  assert (2^20 <= byteLength memory_tag99) as Hm by (vm_compute; discriminate).
  assert (tag_of memory_tag99 = 99) as Ht by (vm_compute; reflexivity).
  destruct (marker_results_are_strings memory_tag99 Hm)
    as (Hr & _ & _ & _ & m4 & _ & H4 & _ & Hsame).
  { right. right. rewrite Ht. lia. }
  split; [exact Hm |]. split; [exact Ht |]. split.
  - rewrite Hr, Ht. vm_compute. reflexivity.
  - exists m4. split; assumption.
Defined.

(** The same at tags 0 and 5, on explicit memories. *)
Example unassigned_marker_or_string :
  tag_of (tagged_memory 0 []) = 0 /\
  tag_of (string_memory (text_bytes unassigned_text)) = 4 /\
  read_js_result (tagged_memory 0 [])
  = Normal (VString (lit "(unassigned variable was returned)")) /\
  read_js_result (string_memory (text_bytes unassigned_text))
  = Normal (VString (lit "(unassigned variable was returned)")).
Proof. vm_compute. repeat split. Qed.

Example function_marker_or_string :
  tag_of (tagged_memory 5 []) = 5 /\
  tag_of (string_memory (text_bytes function_text)) = 4 /\
  read_js_result (tagged_memory 5 [])
  = Normal (VString (lit "(function was returned)")) /\
  read_js_result (string_memory (text_bytes function_text))
  = Normal (VString (lit "(function was returned)")).
Proof. vm_compute. repeat split. Qed.

(* ================================================================== *)
(** * Further properties *)

(* ------------------------------------------------------------------ *)
(** ** The decoder on any buffer *)

Lemma getFloat64_out_of_bounds (m : Memory) (off : Z) :
  byteLength m < off + 8 -> getFloat64 m off = Throw RangeError.
Proof.
  intros H. unfold getFloat64.
  destruct (Z.gtb_spec (off + 8) (byteLength m)); [reflexivity | lia].
Qed.

(** With the tag word inside the buffer, the decoder is a chain of tests
    on the tag. *)
Lemma read_js_result_switch (m : Memory) :
  2^20 - 8 <= byteLength m ->
  read_js_result m
  = if tag_of m =? 0 then Normal (VString unassigned_text)
    else if tag_of m =? 1 then Normal VUndefined
    else if tag_of m =? 2 then
      cbind (getFloat64 m data_offset) (fun x => Normal (VNumber x))
    else if tag_of m =? 3 then
      cbind (getUint32 m data_offset)
        (fun w => Normal (VBoolean (negb (w =? 0))))
    else if tag_of m =? 4 then
      cbind (getUint32 m data_offset) (fun ptr =>
        cbind (getUint32 m ptr) (fun len =>
          cbind (Uint8Array_view m (ptr + 4) len) (fun view =>
            Normal (VString (TextDecoder.decode view)))))
    else if tag_of m =? 5 then Normal (VString function_text)
    else Normal (VString (invalid_tag_text (tag_of m))).
Proof.
  intros Hm. unfold read_js_result.
  rewrite (getUint32_in_bounds m tag_offset) by (rewrite tag_offset_eq; lia).
  rewrite tag_offset_eq. fold (tag_of m). cbn [cbind].
  destruct (tag_of m) as [| p | p]; try reflexivity.
  destruct p as [[[q | q |] | [q | q |] |] | [[q | q |] | [q | q |] |] |];
    reflexivity.
Qed.

(** X1. [read_js_result] raises exactly when one of the reads it makes
    for the tag lies outside the buffer, and what it raises is a
    RangeError: a buffer shorter than the tag word, a number, boolean or
    pointer word cut off by the end of the buffer, or a string that runs
    past it.  On every other buffer it returns a value. *)
Theorem read_js_result_raises_exactly (m : Memory) :
  if readable m then exists v, read_js_result m = Normal v
  else read_js_result m = Throw RangeError.
Proof.
  unfold readable.
  destruct (Z.leb_spec (2^20 - 8) (byteLength m)) as [Hm | Hm]; cbn [andb].
  2:{ unfold read_js_result.
      rewrite getUint32_out_of_bounds by (rewrite tag_offset_eq; lia).
      reflexivity. }
  rewrite (read_js_result_switch m Hm).
  destruct (Z.eqb_spec (tag_of m) 2) as [H2 | H2].
  { rewrite H2. cbn [Z.eqb Pos.eqb].
    destruct (Z.leb_spec (2^20) (byteLength m)).
    - rewrite getFloat64_in_bounds by (rewrite data_offset_eq; lia).
      eexists. reflexivity.
    - rewrite getFloat64_out_of_bounds by (rewrite data_offset_eq; lia).
      reflexivity. }
  destruct (Z.eqb_spec (tag_of m) 3) as [H3 | H3].
  { rewrite H3. cbn [Z.eqb Pos.eqb].
    destruct (Z.leb_spec (2^20 - 4) (byteLength m)).
    - rewrite getUint32_in_bounds by (rewrite data_offset_eq; lia).
      eexists. reflexivity.
    - rewrite getUint32_out_of_bounds by (rewrite data_offset_eq; lia).
      reflexivity. }
  destruct (Z.eqb_spec (tag_of m) 4) as [H4 | H4].
  { rewrite H4. cbn [Z.eqb Pos.eqb].
    destruct (Z.leb_spec (2^20 - 4) (byteLength m)); cbn [andb].
    - rewrite (getUint32_in_bounds m data_offset)
        by (rewrite data_offset_eq; lia).
      rewrite data_offset_eq. fold (string_pointer m). cbn [cbind].
      pose proof (uint32_le_at_range m (string_pointer m)) as Hlen.
      fold (string_length m) in Hlen.
      destruct (Z.leb_spec (string_pointer m + 4 + string_length m)
                  (byteLength m)).
      + rewrite getUint32_in_bounds by lia.
        fold (string_length m). cbn [cbind].
        rewrite Uint8Array_view_in_bounds by lia.
        eexists. reflexivity.
      + destruct (Z_le_gt_dec (string_pointer m + 4) (byteLength m)).
        * rewrite getUint32_in_bounds by lia.
          fold (string_length m). cbn [cbind].
          rewrite Uint8Array_view_out_of_bounds by lia. reflexivity.
        * rewrite getUint32_out_of_bounds by lia. reflexivity.
    - rewrite getUint32_out_of_bounds by (rewrite data_offset_eq; lia).
      reflexivity. }
  destruct (tag_of m =? 0); [eexists; reflexivity |].
  destruct (tag_of m =? 1); [eexists; reflexivity |].
  destruct (tag_of m =? 5); eexists; reflexivity.
Qed.

(** The shortest buffers: with fewer than [(1<<20)-8] bytes the decoder
    raises whatever the buffer holds, and with exactly that many it
    returns for every tag except 2, 3 and 4. *)
Example read_js_result_short_buffers :
  read_js_result (memory_of (2^20 - 9) []) = Throw RangeError /\
  read_js_result (memory_of (2^20 - 8) [(2^20 - 12, [x01])])
  = Normal VUndefined /\
  read_js_result (memory_of (2^20 - 8) [(2^20 - 12, [x03])])
  = Throw RangeError /\
  read_js_result (memory_of (2^20 - 1) [(2^20 - 12, [x02])])
  = Throw RangeError.
Proof. vm_compute. repeat split. Qed.

(* ------------------------------------------------------------------ *)
(** ** What the decoder looks at *)

Lemma uint32_le_at_agree (m m' : Memory) (lo hi off : Z) :
  agree_on m m' lo hi -> lo <= off -> off + 4 <= hi ->
  uint32_le_at m off = uint32_le_at m' off.
Proof.
  intros H Hlo Hhi. unfold uint32_le_at, u8.
  rewrite !(H off), !(H (off + 1)), !(H (off + 2)), !(H (off + 3)) by lia.
  reflexivity.
Qed.

Lemma uint64_le_at_agree (m m' : Memory) (lo hi off : Z) :
  agree_on m m' lo hi -> lo <= off -> off + 8 <= hi ->
  uint64_le_at m off = uint64_le_at m' off.
Proof.
  intros H Hlo Hhi. unfold uint64_le_at.
  rewrite (uint32_le_at_agree m m' lo hi off),
    (uint32_le_at_agree m m' lo hi (off + 4)) by (assumption || lia).
  reflexivity.
Qed.

Lemma bytes_from_agree (m m' : Memory) (lo hi : Z) (n : nat) :
  forall off,
    agree_on m m' lo hi -> lo <= off -> off + Z.of_nat n <= hi ->
    bytes_from m off n = bytes_from m' off n.
Proof.
  induction n as [| n IH]; intros off H Hlo Hhi; [reflexivity |].
  cbn [bytes_from]. rewrite (H off) by lia. f_equal. apply IH; [exact H | lia..].
Qed.

(** X2. Unless the tag is 4, the result depends on nothing but the twelve
    bytes from [(1<<20)-12] on: two memories of at least [1<<20] bytes that
    agree there decode alike, whatever their sizes and whatever else they
    hold. *)
Theorem read_js_result_reads_tagged_region (m m' : Memory) :
  2^20 <= byteLength m -> 2^20 <= byteLength m' ->
  agree_on m m' (2^20 - 12) (2^20) ->
  tag_of m <> 4 ->
  read_js_result m' = read_js_result m.
Proof.
  intros Hm Hm' H Hnot.
  assert (tag_of m' = tag_of m) as Ht
    by (symmetry; apply (uint32_le_at_agree m m' (2^20 - 12) (2^20));
        [exact H | lia..]).
  destruct (tag_cases (tag_of m)) as [T | [T | [T | [T | [T | [T | T]]]]]];
    try contradiction.
  - rewrite (read_tag_0 m Hm T), (read_tag_0 m' Hm') by congruence.
    reflexivity.
  - rewrite (read_tag_1 m Hm T), (read_tag_1 m' Hm') by congruence.
    reflexivity.
  - rewrite (read_tag_2 m Hm T), (read_tag_2 m' Hm') by congruence.
    rewrite (uint64_le_at_agree m m' (2^20 - 12) (2^20)) by (exact H || lia).
    reflexivity.
  - rewrite (read_tag_3 m Hm T), (read_tag_3 m' Hm') by congruence.
    rewrite (uint32_le_at_agree m m' (2^20 - 12) (2^20) (2^20 - 8))
      by (exact H || lia).
    reflexivity.
  - rewrite (read_tag_5 m Hm T), (read_tag_5 m' Hm') by congruence.
    reflexivity.
  - rewrite (read_tag_other m Hm T), (read_tag_other m' Hm') by congruence.
    now rewrite Ht.
Qed.

Lemma read_js_result_reads_tagged_region_witness :
  read_js_result (store (mkMemory (2^21) (byteAt memory_true)) 0 xff)
  = read_js_result memory_true.
Proof.
  apply read_js_result_reads_tagged_region.
  - vm_compute. discriminate.
  - vm_compute. discriminate.
  - intros i Hi. cbn [store byteAt].
    destruct (Z.eqb_spec i 0); [lia | reflexivity].
  - vm_compute. discriminate.
Defined.

(** X3. With tag 4 the result depends, besides those twelve bytes, on
    the length word and the string bytes the pointer leads to, and on
    nothing else: two memories that agree on both regions, and hold the
    string inside their bounds, decode alike. *)
Theorem read_js_result_reads_string_region (m m' : Memory) :
  2^20 <= byteLength m -> 2^20 <= byteLength m' ->
  agree_on m m' (2^20 - 12) (2^20) ->
  tag_of m = 4 ->
  string_pointer m + 4 + string_length m <= byteLength m ->
  string_pointer m + 4 + string_length m <= byteLength m' ->
  agree_on m m' (string_pointer m)
    (string_pointer m + 4 + string_length m) ->
  read_js_result m' = read_js_result m.
Proof.
  intros Hm Hm' H T Hend Hend' Hs.
  assert (tag_of m' = 4) as T'.
  { rewrite <- T. symmetry.
    apply (uint32_le_at_agree m m' (2^20 - 12) (2^20)); [exact H | lia..]. }
  assert (string_pointer m' = string_pointer m) as Hp.
  { symmetry.
    apply (uint32_le_at_agree m m' (2^20 - 12) (2^20)); [exact H | lia..]. }
  pose proof (uint32_le_at_range m (string_pointer m)) as Hlen.
  fold (string_length m) in Hlen.
  assert (string_length m' = string_length m) as Hl.
  { unfold string_length. rewrite Hp. symmetry.
    eapply uint32_le_at_agree; [exact Hs | lia |].
    fold (string_length m). lia. }
  rewrite (read_tag_4 m Hm T Hend).
  rewrite (read_tag_4 m' Hm' T') by (rewrite Hp, Hl; exact Hend').
  rewrite Hp, Hl.
  rewrite (bytes_from_agree m m' (string_pointer m)
             (string_pointer m + 4 + string_length m)) by (exact Hs || lia).
  reflexivity.
Qed.

Lemma read_js_result_reads_string_region_witness :
  read_js_result (store (mkMemory (2^21) (byteAt memory_hello)) 0 xff)
  = Normal (VString (lit "hello")).
Proof.
  rewrite (read_js_result_reads_string_region memory_hello).
  - vm_compute. reflexivity.
  - vm_compute. discriminate.
  - vm_compute. discriminate.
  - intros i Hi. cbn [store byteAt].
    destruct (Z.eqb_spec i 0); [lia | reflexivity].
  - vm_compute. reflexivity.
  - vm_compute. discriminate.
  - vm_compute. discriminate.
  - change (string_pointer memory_hello) with 1024.
    change (string_length memory_hello) with 5.
    intros i Hi. cbn [store byteAt].
    destruct (Z.eqb_spec i 0); [lia | reflexivity].
Defined.

(* ------------------------------------------------------------------ *)
(** ** Strings the decoder returns *)

Lemma bytes_from_length (m : Memory) (n : nat) :
  forall off, List.length (bytes_from m off n) = n.
Proof.
  induction n as [| n IH]; intros off; [reflexivity |].
  cbn [bytes_from List.length]. now rewrite IH.
Qed.

Lemma ascii_values (bs : list byte) :
  Forall (fun b => byte_value b < 128) bs ->
  Forall (fun c => 0 <= c < 128) (map byte_value bs).
Proof.
  intros H. rewrite Forall_map. eapply Forall_impl; [| exact H].
  cbv beta. intros b Hb. pose proof (byte_value_range b).
  unfold byte_value in *. lia.
Qed.

Lemma decode_ascii (bs : list byte) :
  Forall (fun b => byte_value b < 128) bs ->
  TextDecoder.decode bs = map byte_value bs.
Proof.
  intros H. unfold TextDecoder.decode.
  rewrite (run_ascii bs H).
  rewrite strip_bom_ascii, utf16_ascii by now apply ascii_values.
  reflexivity.
Qed.

(** X4. A tag-4 string whose bytes are all below 0x80 comes back byte for
    byte: the result is a string with one code unit per byte, equal to
    that byte, and its length is the length word. *)
Theorem read_js_result_ascii_string (m : Memory) :
  2^20 <= byteLength m ->
  tag_of m = 4 ->
  string_pointer m + 4 + string_length m <= byteLength m ->
  Forall (fun b => byte_value b < 128) (string_bytes m) ->
  read_js_result m = Normal (VString (map byte_value (string_bytes m))) /\
  Z.of_nat (List.length (map byte_value (string_bytes m))) = string_length m.
Proof.
  intros Hm T Hend Hascii. split.
  - rewrite (read_tag_4 m Hm T Hend). fold (string_bytes m).
    now rewrite decode_ascii.
  - unfold string_bytes. rewrite length_map, bytes_from_length.
    pose proof (uint32_le_at_range m (string_pointer m)) as Hlen.
    fold (string_length m) in Hlen. lia.
Qed.

Lemma read_js_result_ascii_string_witness :
  read_js_result memory_hello
  = Normal (VString (map byte_value (string_bytes memory_hello))) /\
  Z.of_nat (List.length (map byte_value (string_bytes memory_hello))) = 5.
Proof.
  apply (read_js_result_ascii_string memory_hello).
  - vm_compute. discriminate.
  - vm_compute. reflexivity.
  - vm_compute. discriminate.
  - vm_compute. repeat constructor.
Defined.

Lemma run_after_bom (rest : list byte) :
  TextDecoder.run TextDecoder.start (xef :: xbb :: xbf :: rest)
  = 65279 :: TextDecoder.run TextDecoder.start rest.
Proof. reflexivity. Qed.

(** X5. The decoder is made with its defaults, so a byte order mark at
    the head of a tag-4 string is not part of the result: when the string
    bytes are EF BB BF followed by bytes below 0x80, the result is the
    text of those following bytes alone, three code units shorter than
    the length word says. *)
Theorem read_js_result_drops_byte_order_mark (m : Memory) (rest : list byte) :
  2^20 <= byteLength m ->
  tag_of m = 4 ->
  string_pointer m + 4 + string_length m <= byteLength m ->
  string_bytes m = xef :: xbb :: xbf :: rest ->
  Forall (fun b => byte_value b < 128) rest ->
  read_js_result m = Normal (VString (map byte_value rest)) /\
  Z.of_nat (List.length (map byte_value rest)) = string_length m - 3.
Proof.
  intros Hm T Hend Hbytes Hascii. split.
  - rewrite (read_tag_4 m Hm T Hend). fold (string_bytes m). rewrite Hbytes.
    unfold TextDecoder.decode. rewrite run_after_bom.
    cbn [TextDecoder.strip_bom Z.eqb Pos.eqb].
    rewrite (run_ascii rest Hascii).
    rewrite utf16_ascii by now apply ascii_values.
    reflexivity.
  - pose proof (f_equal (@List.length byte) Hbytes) as Hl.
    unfold string_bytes in Hl. rewrite bytes_from_length in Hl.
    cbn [List.length] in Hl. rewrite length_map.
    pose proof (uint32_le_at_range m (string_pointer m)) as Hlen.
    fold (string_length m) in Hlen. lia.
Qed.

Lemma read_js_result_drops_byte_order_mark_witness :
  string_length Programs.memory_bom_hi = 5 /\
  read_js_result Programs.memory_bom_hi = Normal (VString (lit "hi")).
Proof.
  split; [vm_compute; reflexivity |].
  apply (read_js_result_drops_byte_order_mark Programs.memory_bom_hi
           [x68; x69]).
  - vm_compute. discriminate.
  - vm_compute. reflexivity.
  - vm_compute. discriminate.
  - vm_compute. reflexivity.
  - vm_compute. repeat constructor.
Defined.

(** *** The tag inside the invalid-tag text *)

Lemma lit_injective (s s' : string) : lit s = lit s' -> s = s'.
Proof.
  unfold lit. intros H.
  rewrite <- (string_of_list_ascii_of_string s),
    <- (string_of_list_ascii_of_string s').
  f_equal.
  revert H. generalize (list_ascii_of_string s) (list_ascii_of_string s').
  induction l as [| a l IH]; intros [| a' l'] H; try discriminate;
    [reflexivity |].
  cbn [map] in H. injection H as Ha Hl.
  apply N2Z.inj in Ha.
  rewrite <- (ascii_N_embedding a), <- (ascii_N_embedding a'), Ha.
  f_equal. now apply IH.
Qed.

Lemma to_uint_not_Nil (n : N) : N.to_uint n <> Decimal.Nil.
Proof.
  intros H. pose proof (DecimalN.Unsigned.of_to n) as E.
  rewrite H in E. cbn in E. subst n. discriminate.
Qed.

Lemma Number_toString_injective (t t' : Z) :
  0 <= t -> 0 <= t' -> Number_toString t = Number_toString t' -> t = t'.
Proof.
  intros Ht Ht' H. unfold Number_toString in H.
  apply lit_injective in H.
  pose proof (NilZero.usu _ (to_uint_not_Nil (Z.to_N t))) as E.
  pose proof (NilZero.usu _ (to_uint_not_Nil (Z.to_N t'))) as E'.
  rewrite H in E. rewrite E in E'. injection E' as E'.
  apply (f_equal N.of_uint) in E'.
  rewrite !DecimalN.Unsigned.of_to in E'. lia.
Qed.

(** X6. The text returned for a tag outside 0..5 tells the tag: two
    memories with such tags that decode to the same result hold the same
    tag. *)
Theorem invalid_tag_is_recoverable (m m' : Memory) :
  2^20 <= byteLength m -> 2^20 <= byteLength m' ->
  ~ 0 <= tag_of m <= 5 -> ~ 0 <= tag_of m' <= 5 ->
  read_js_result m = read_js_result m' ->
  tag_of m = tag_of m'.
Proof.
  intros Hm Hm' T T' H.
  rewrite (read_tag_other m Hm T), (read_tag_other m' Hm' T') in H.
  injection H as H. unfold invalid_tag_text in H.
  apply app_inv_tail in H.
  pose proof (uint32_le_at_range m (2^20 - 12)) as R.
  pose proof (uint32_le_at_range m' (2^20 - 12)) as R'.
  fold (tag_of m) in R. fold (tag_of m') in R'.
  apply Number_toString_injective; [lia | lia | exact H].
Qed.

Lemma invalid_tag_is_recoverable_witness :
  tag_of (store (mkMemory (2^21) (byteAt memory_tag99)) 0 xff)
  = tag_of memory_tag99.
Proof.
  apply invalid_tag_is_recoverable.
  - vm_compute. discriminate.
  - vm_compute. discriminate.
  - vm_compute. intros [_ H]. apply H. reflexivity.
  - vm_compute. intros [_ H]. apply H. reflexivity.
  - vm_compute. reflexivity.
Defined.

(* ------------------------------------------------------------------ *)
(** ** Fault codes and their texts *)

Lemma stringify_unknown (code : Z) :
  known_code code = false ->
  stringifySourcerorRuntimeErrorCode code = unknown_runtime_error.
Proof.
  unfold known_code. cbn [existsb]. rewrite !orb_false_iff, !Z.eqb_neq.
  intros (H0 & H1 & H16 & H18 & H19 & H22 & H23 & _).
  destruct code as [| p | p]; [lia | | reflexivity].
  do 5 (try (destruct p as [p | p |]; try reflexivity; try lia)).
Qed.

Lemma known_code_cases (code : Z) :
  known_code code = true ->
  code = 0 \/ code = 1 \/ code = 16 \/ code = 18 \/ code = 19
  \/ code = 22 \/ code = 23.
Proof.
  unfold known_code. cbn [existsb]. rewrite !orb_true_iff, !Z.eqb_eq.
  intros H. decompose [or] H; try lia; discriminate.
Qed.

(** X7. The explain text tells the fault code as far as the switch does:
    two codes with the same explain text are the same code, or are both
    codes without a case of their own (negative codes and the gaps such
    as 0x2, 0x11 or 0x14 included), which all share the unknown-error
    pair. *)
Theorem explain_tells_the_code (code code' : Z) :
  fst (stringifySourcerorRuntimeErrorCode code)
  = fst (stringifySourcerorRuntimeErrorCode code') ->
  code = code' \/
  (known_code code = false /\ known_code code' = false /\
   stringifySourcerorRuntimeErrorCode code = unknown_runtime_error /\
   stringifySourcerorRuntimeErrorCode code' = unknown_runtime_error).
Proof.
  intros H.
  destruct (known_code code) eqn:K; destruct (known_code code') eqn:K'.
  - apply known_code_cases in K. apply known_code_cases in K'.
    left.
    decompose [or] K; decompose [or] K'; subst;
      try reflexivity; exfalso; vm_compute in H; discriminate.
  - exfalso. rewrite (stringify_unknown code' K') in H.
    apply known_code_cases in K.
    decompose [or] K; subst; vm_compute in H; discriminate.
  - exfalso. rewrite (stringify_unknown code K) in H.
    apply known_code_cases in K'.
    decompose [or] K'; subst; vm_compute in H; discriminate.
  - right. repeat split; try reflexivity; now apply stringify_unknown.
Qed.

Lemma explain_tells_the_code_witness :
  0x11 = -3 \/
  (known_code 0x11 = false /\ known_code (-3) = false /\
   stringifySourcerorRuntimeErrorCode 0x11 = unknown_runtime_error /\
   stringifySourcerorRuntimeErrorCode (-3) = unknown_runtime_error).
Proof.
  apply explain_tells_the_code. reflexivity.
Defined.

(* ------------------------------------------------------------------ *)
(** ** compile on every path *)

Section CompileFurther.

Context {host : Host}.

(** X8. Whatever becomes of the compilation once there is a tree, the
    sink afterwards is what the parser left, then one Syntax diagnostic
    per callback invocation in the order of the invocations, then the
    validation diagnostic if and only if validation was attempted and
    failed.  A compile operation that fails, by a rejected promise or by
    throwing out of the call, or a syntax error, loses none of the
    diagnostics reported before it. *)
Theorem compile_reports_on_every_path (code : jsstring) (w : World)
    (estree : Program) (errs : list SourceError) :
  slang_parse code (errors w) = (Some estree, errs) ->
  let h := new_context_handle (calls w) in
  let es_str := JSON_stringify estree in
  let reports := fst (Sourceror_compile h es_str (lit "")) in
  errors (snd (compile code w))
  = errs ++ map diagnostic_of_report reports
    ++ match snd (Sourceror_compile h es_str (lit "")) with
       | Returns (Fulfilled wasm_binary) =>
           if existsb is_error reports then []
           else match WebAssembly_compile wasm_binary with
                | Fulfilled _ => []
                | Rejected err => [validation_diagnostic err]
                end
       | Returns (Rejected _) => []
       | Throws _ => []
       end.
Proof.
  intros parsed h es_str reports.
  pose proof (compile_parsed code w estree errs parsed) as H.
  cbv zeta in H. rewrite H. clear H. fold h es_str reports.
  destruct (snd (Sourceror_compile h es_str (lit "")))
    as [[wasm_binary | e] | e];
    try (cbn [snd errors]; now rewrite app_nil_r).
  destruct (existsb is_error reports);
    [cbn [snd errors]; now rewrite app_nil_r |].
  destruct (WebAssembly_compile wasm_binary) as [x | err]; cbn [snd errors].
  - now rewrite app_nil_r.
  - now rewrite app_assoc.
Qed.

(** X9. [compile] is fulfilled with a module only on one path: the
    parser gave a tree, the compile operation gave bytes, no callback
    invocation had a severity code of 4 or more, and the host made that
    very module out of those bytes. *)
Theorem compile_module_iff (code : jsstring) (w : World) (x : WasmModule) :
  fst (compile code w) = Fulfilled (IsModule x) <->
  exists estree errs wasm_binary,
    slang_parse code (errors w) = (Some estree, errs) /\
    snd (Sourceror_compile (new_context_handle (calls w))
           (JSON_stringify estree) (lit ""))
    = Returns (Fulfilled wasm_binary) /\
    existsb is_error
      (fst (Sourceror_compile (new_context_handle (calls w))
              (JSON_stringify estree) (lit ""))) = false /\
    WebAssembly_compile wasm_binary = Fulfilled x.
Proof.
  split.
  - destruct (slang_parse code (errors w)) as [[estree |] errs] eqn:parsed.
    + pose proof (compile_parsed code w estree errs parsed) as H.
      cbv zeta in H. rewrite H. clear H.
      destruct (snd (Sourceror_compile _ _ _))
        as [[wasm_binary | e] | e] eqn:E; try discriminate.
      destruct (existsb is_error _) eqn:Eerr; [discriminate |].
      destruct (WebAssembly_compile wasm_binary) as [x' | err] eqn:Ev;
        [| discriminate].
      cbn [fst]. intros [= <-].
      exists estree, errs, wasm_binary. repeat split; assumption.
    + rewrite (compile_not_parsed code w errs parsed). discriminate.
  - intros (estree & errs & wasm_binary & parsed & E & Eerr & Ev).
    pose proof (compile_parsed code w estree errs parsed) as H.
    cbv zeta in H. rewrite H, E, Eerr, Ev. reflexivity.
Qed.

(** X10. The promise of [compile] is rejected in two cases only: the
    parser yields no tree, and the rejection is the parse-failure
    CompileError; or the call of the compile operation throws instead of
    returning its promise, and the rejection is what it threw.  Whenever
    that call returns, every outcome, failures included, arrives as the
    value the promise is fulfilled with. *)
Theorem compile_rejected_iff (code : jsstring) (w : World) (e : JSError) :
  fst (compile code w) = Rejected e <->
  match slang_parse code (errors w) with
  | (None, _) => e = CompileError (lit "js-slang cannot parse the program")
  | (Some estree, _) =>
      exists thrown,
        snd (Sourceror_compile (new_context_handle (calls w))
               (JSON_stringify estree) (lit "")) = Throws thrown /\
        e = HostError thrown
  end.
Proof.
  destruct (slang_parse code (errors w)) as [[estree |] errs] eqn:parsed.
  - pose proof (compile_parsed code w estree errs parsed) as H.
    cbv zeta in H. rewrite H. clear H.
    destruct (snd (Sourceror_compile _ _ _)) as [[wasm_binary | e'] | e'].
    + destruct (existsb is_error _);
        [| destruct (WebAssembly_compile wasm_binary)];
        (split; [discriminate | intros (t & Ht & _); discriminate]).
    + split; [discriminate | intros (t & Ht & _); discriminate].
    + cbn [fst]. split.
      * intros [= <-]. exists e'. split; reflexivity.
      * intros (t & [= <-] & ->). reflexivity.
  - rewrite (compile_not_parsed code w errs parsed). cbn [fst].
    split; [intros [= <-]; reflexivity | intros ->; reflexivity].
Qed.

(** X11. The calls of a compilation with a tree come in a fixed order:
    the context is created first and the compile operation is given the
    handle just created, the serialised tree and an empty third argument.
    When that call returns, the host is asked to validate exactly when
    there are bytes and no callback invocation had a severity code of 4
    or more, and then with the bytes of the compiler, and the destruction
    of the same handle is the last call.  When that call throws, nothing
    is called after it. *)
Theorem compile_call_sequence (code : jsstring) (w : World)
    (estree : Program) (errs : list SourceError) :
  slang_parse code (errors w) = (Some estree, errs) ->
  let h := new_context_handle (calls w) in
  let es_str := JSON_stringify estree in
  calls (snd (compile code w))
  = calls w
    ++ [Call_create_context h; Call_Sourceror_compile h es_str (lit "")]
    ++ match snd (Sourceror_compile h es_str (lit "")) with
       | Returns (Fulfilled wasm_binary) =>
           (if existsb is_error (fst (Sourceror_compile h es_str (lit "")))
            then []
            else [Call_WebAssembly_compile wasm_binary])
           ++ [Call_destroy_context h]
       | Returns (Rejected _) => [Call_destroy_context h]
       | Throws _ => []
       end.
Proof.
  intros parsed h es_str.
  pose proof (compile_parsed code w estree errs parsed) as H.
  cbv zeta in H. rewrite H. clear H. fold h es_str.
  unfold opening.
  destruct (snd (Sourceror_compile h es_str (lit "")))
    as [[wasm_binary | e] | e];
    try (cbn [snd calls]; rewrite <- ?app_assoc; reflexivity).
  destruct (existsb is_error _);
    [cbn [snd calls]; rewrite <- !app_assoc; reflexivity |].
  destruct (WebAssembly_compile wasm_binary); cbn [snd calls];
    rewrite <- !app_assoc; reflexivity.
Qed.

(** X12. Whether [compile] succeeds is decided by the flag of this
    invocation alone: what the sink already holds, and what the parser
    adds to it, has no part in the outcome.  Two invocations on the same
    code, with the same calls made before and the same tree from the
    parser, settle alike, whatever their sinks hold. *)
Theorem compile_outcome_ignores_sink (code : jsstring) (w w' : World) :
  calls w = calls w' ->
  fst (slang_parse code (errors w)) = fst (slang_parse code (errors w')) ->
  fst (compile code w') = fst (compile code w).
Proof.
  intros Hcalls Htree.
  destruct (slang_parse code (errors w)) as [[estree |] errs] eqn:parsed;
    destruct (slang_parse code (errors w')) as [[estree' |] errs'] eqn:parsed';
    cbn [fst] in Htree; try discriminate.
  - injection Htree as <-.
    pose proof (compile_parsed code w estree errs parsed) as H.
    pose proof (compile_parsed code w' estree errs' parsed') as H'.
    cbv zeta in H, H'. rewrite H, H', <- Hcalls. clear H H'.
    destruct (snd (Sourceror_compile _ _ _)) as [[wasm_binary | e] | e];
      try reflexivity.
    destruct (existsb is_error _); [reflexivity |].
    destruct (WebAssembly_compile wasm_binary); reflexivity.
  - now rewrite (compile_not_parsed code w errs parsed),
      (compile_not_parsed code w' errs' parsed').
Qed.

(** X13. When the promise of the compile operation is rejected, the
    diagnostics its callback invocations reported before the failure stay
    in the sink, the host is not asked to validate, the context is
    destroyed, and the failure is handed on unchanged, as the value of
    the promise. *)
Theorem compile_operation_failure (code : jsstring) (w : World)
    (estree : Program) (errs : list SourceError)
    (reports : list Report) (e : HostFailure) :
  slang_parse code (errors w) = (Some estree, errs) ->
  Sourceror_compile (new_context_handle (calls w)) (JSON_stringify estree)
    (lit "") = (reports, Returns (Rejected e)) ->
  compile code w
  = (Fulfilled (IsError (HostError e)),
     mkWorld (errs ++ map diagnostic_of_report reports)
       (calls w
        ++ [Call_create_context (new_context_handle (calls w));
            Call_Sourceror_compile (new_context_handle (calls w))
              (JSON_stringify estree) (lit "");
            Call_destroy_context (new_context_handle (calls w))])).
Proof.
  intros parsed compiled.
  pose proof (compile_parsed code w estree errs parsed) as H.
  cbv zeta in H. rewrite H. clear H.
  rewrite compiled. cbn [fst snd]. unfold opening.
  rewrite <- !app_assoc. reflexivity.
Qed.

(** X19. The two handlers of the chain are the only places where the
    context is destroyed, and one of them runs whenever the call of the
    compile operation has returned its promise: on all those paths
    (success, syntax error, validation failure, rejected compile
    operation) the calls [compile] adds hold exactly one
    [create_context] and, after it, exactly one [destroy_context] of the
    same handle; when parsing fails they hold neither. *)
Theorem teardown_when_call_returns (code : jsstring) (w : World) :
  (forall estree errs thrown,
     slang_parse code (errors w) = (Some estree, errs) ->
     snd (Sourceror_compile (new_context_handle (calls w))
            (JSON_stringify estree) (lit "")) <> Throws thrown) ->
  exists added : list HostCall,
    calls (snd (compile code w)) = calls w ++ added /\
    count is_destroy added = count is_create added /\
    match fst (slang_parse code (errors w)) with
    | None => added = []
    | Some _ =>
        exists h,
          filter (fun c => is_create c || is_destroy c) added
          = [Call_create_context h; Call_destroy_context h]
    end.
Proof.
  intros Hreturns.
  destruct (teardown_by_call_result code w) as (added & Hcalls & Hshape).
  exists added. split; [exact Hcalls |].
  destruct (slang_parse code (errors w)) as [[estree |] errs] eqn:parsed;
    cbn [fst].
  - cbv zeta in Hshape.
    specialize (Hreturns estree errs).
    destruct (snd (Sourceror_compile _ _ _)) as [p | thrown].
    + unfold count.
      assert (forall cs,
                filter is_destroy
                  (filter (fun c => is_create c || is_destroy c) cs)
                = filter is_destroy cs) as Hd.
      { induction cs as [| c cs IH]; [reflexivity |].
        destruct c; cbn; rewrite ?IH; reflexivity. }
      assert (forall cs,
                filter is_create
                  (filter (fun c => is_create c || is_destroy c) cs)
                = filter is_create cs) as Hc.
      { induction cs as [| c cs IH]; [reflexivity |].
        destruct c; cbn; rewrite ?IH; reflexivity. }
      rewrite <- (Hd added), <- (Hc added), Hshape.
      split; [reflexivity |]. eexists. reflexivity.
    + exfalso. exact (Hreturns thrown eq_refl eq_refl).
  - subst added. split; reflexivity.
Qed.

End CompileFurther.

Lemma compile_reports_on_every_path_witness :
  errors (snd (compile (host := Scenario.host) (lit "garbage")
                 Scenario.empty_world))
  = [validation_diagnostic
       (lit "CompileError: expected magic word 00 61 73 6d")].
Proof.
  exact (compile_reports_on_every_path (host := Scenario.host)
           (lit "garbage") Scenario.empty_world (lit "garbage") [] eq_refl).
Defined.

Lemma compile_call_sequence_witness :
  calls (snd (compile (host := Scenario.host) (lit "warn")
                Scenario.empty_world))
  = [Call_create_context 1;
     Call_Sourceror_compile 1 (lit "warn") (lit "");
     Call_WebAssembly_compile Scenario.good_bytes;
     Call_destroy_context 1] /\
  calls (snd (compile (host := Scenario.host) (lit "abort")
                Scenario.empty_world))
  = [Call_create_context 1;
     Call_Sourceror_compile 1 (lit "abort") (lit "")].
Proof.
  split.
  - exact (compile_call_sequence (host := Scenario.host)
             (lit "warn") Scenario.empty_world (lit "warn") [] eq_refl).
  - exact (compile_call_sequence (host := Scenario.host)
             (lit "abort") Scenario.empty_world (lit "abort") [] eq_refl).
Defined.

Lemma compile_outcome_ignores_sink_witness :
  severity Scenario.parse_diagnostic = ERROR /\
  fst (compile (host := Scenario.host) (lit "warn")
         (mkWorld [Scenario.parse_diagnostic] []))
  = fst (compile (host := Scenario.host) (lit "warn") Scenario.empty_world).
Proof.
  split; [reflexivity |].
  apply (compile_outcome_ignores_sink (host := Scenario.host));
    reflexivity.
Defined.

Lemma compile_operation_failure_witness :
  compile (host := Scenario.host) (lit "crash") Scenario.empty_world
  = (Fulfilled (IsError (HostError (ExternalFailure (lit "compiler crashed")))),
     mkWorld []
       [Call_create_context 1;
        Call_Sourceror_compile 1 (lit "crash") (lit "");
        Call_destroy_context 1]).
Proof.
  exact (compile_operation_failure (host := Scenario.host)
           (lit "crash") Scenario.empty_world (lit "crash") [] []
           (ExternalFailure (lit "compiler crashed")) eq_refl eq_refl).
Defined.

Lemma teardown_when_call_returns_witness :
  exists added : list HostCall,
    calls (snd (compile (host := Scenario.host) (lit "crash")
                  Scenario.empty_world)) = [] ++ added /\
    count is_destroy added = count is_create added.
Proof.
  destruct (teardown_when_call_returns (host := Scenario.host) (lit "crash")
              Scenario.empty_world) as (added & Hcalls & Hcount & _).
  - intros estree errs thrown Hparsed.
    injection Hparsed as <- _. discriminate.
  - exists added. split; assumption.
Defined.

(* ------------------------------------------------------------------ *)
(** ** run on every path *)

Section RunFurther.

Context {host : Host}.

(** [run] once the module is linked and its start function has returned,
    by the way the entry point ends. *)
Lemma run_by_ending (wasm_module : WasmModule) (linked : Instance)
    (w : World) (caught0 : list FaultCall) (m0 : Memory) :
  WebAssembly_instantiate wasm_module = Fulfilled linked ->
  ending (start_function linked) (linear_memory linked) = (caught0, Ends m0) ->
  run wasm_module w
  = let reported caught :=
      errors w ++ map diagnostic_of_fault caught0
      ++ map diagnostic_of_fault caught in
    match ending (main linked) m0 with
    | (caught, Ends m') =>
        match read_js_result m' with
        | Normal v =>
            (Fulfilled v,
             mkWorld (reported caught)
               (calls w ++ [Call_instantiate; Call_main; Call_read_js_result]))
        | Throw e =>
            (Rejected (HostError e),
             mkWorld (reported caught ++ [unexpected_diagnostic (toString e)])
               (calls w ++ [Call_instantiate; Call_main; Call_read_js_result]))
        end
    | (caught, Faults code detail file line column m') =>
        (Rejected (RuntimeError (lit "runtime error")),
         mkWorld (reported caught ++ [fault_diagnostic code line column])
           (calls w ++ [Call_instantiate; Call_main]))
    | (caught, Fails e m') =>
        (Rejected (HostError e),
         mkWorld (reported caught ++ [unexpected_diagnostic (toString e)])
           (calls w ++ [Call_instantiate; Call_main]))
    end.
Proof.
  intros Hlink Hstart. unfold run, bind.
  rewrite (instantiate_started wasm_module linked w caught0 m0 Hlink Hstart).
  cbn [then_]. unfold on_instance. cbn [main linear_memory].
  rewrite exec_ending.
  destruct (ending (main linked) m0)
    as [caught [m' | c d f l col m' | e m']]; cbv zeta.
  - destruct (read_js_result m') as [v | e].
    + f_equal. unfold record_call. same_world.
    + cbn [on_catch]. unfold bind, ret. f_equal.
      unfold record_call, unexpected_diagnostic. same_world.
  - cbn [on_catch]. unfold ret. f_equal. unfold record_call. same_world.
  - cbn [on_catch]. unfold bind, ret. f_equal.
    unfold record_call, unexpected_diagnostic. same_world.
Qed.

(** [run] when instantiation does not give an instance: the module does
    not link, or its start function does not return. *)
Lemma run_not_instantiated (wasm_module : WasmModule) (w : World) :
  run wasm_module w
  = match WebAssembly_instantiate wasm_module with
    | Rejected e =>
        (Rejected (HostError e),
         mkWorld (errors w) (calls w ++ [Call_instantiate]))
    | Fulfilled linked =>
        match ending (start_function linked) (linear_memory linked) with
        | (caught0, Ends m0) => run wasm_module w
        | (caught0, Faults code detail file line column _) =>
            (Rejected TheToken,
             mkWorld
               (errors w ++ map diagnostic_of_fault caught0
                ++ [fault_diagnostic code line column])
               (calls w ++ [Call_instantiate]))
        | (caught0, Fails e _) =>
            (Rejected (HostError e),
             mkWorld (errors w ++ map diagnostic_of_fault caught0)
               (calls w ++ [Call_instantiate]))
        end
    end.
Proof.
  destruct (WebAssembly_instantiate wasm_module) as [linked | e] eqn:Hlink.
  - destruct (ending (start_function linked) (linear_memory linked))
      as [caught0 [m0 | c d f l col m0 | e m0]] eqn:Hstart;
      [reflexivity | |];
      unfold run, bind, do_instantiate;
      rewrite Hlink, exec_ending, Hstart; cbn [then_]; unfold ret;
      f_equal; unfold record_call; same_world.
  - unfold run, bind, do_instantiate. rewrite Hlink. reflexivity.
Qed.

(** X14. When the entry point returns without calling the fault import
    and the decoder returns a value on the memory it leaves, [run] is
    fulfilled with that value, decoded from the memory as the entry point
    left it and not as it was instantiated, and appends nothing to the
    sink. *)
Theorem run_returns_decoded_value (wasm_module : WasmModule)
    (linked : Instance) (w : World) (m0 m' : Memory) (v : JSValue) :
  WebAssembly_instantiate wasm_module = Fulfilled linked ->
  ending (start_function linked) (linear_memory linked) = ([], Ends m0) ->
  ending (main linked) m0 = ([], Ends m') ->
  read_js_result m' = Normal v ->
  run wasm_module w
  = (Fulfilled v,
     mkWorld (errors w)
       (calls w ++ [Call_instantiate; Call_main; Call_read_js_result])).
Proof.
  intros Hlink Hstart Hend Hv.
  rewrite (run_by_ending wasm_module linked w [] m0 Hlink Hstart).
  rewrite Hend. rewrite Hv. cbn [map]. now rewrite !app_nil_r.
Qed.

(** X15. When the engine fails while the entry point runs (a trap, or a
    memory access out of bounds), [run] is rejected with that failure
    itself, not with a RuntimeError; one Runtime diagnostic of severity
    Error is appended, located at (0,0)-(0,0), whose explain and
    elaborate texts are both the description of the failure; and the
    decoder is not called. *)
Theorem run_unexpected_failure (wasm_module : WasmModule)
    (linked : Instance) (w : World) (e : HostFailure) (m0 m' : Memory) :
  WebAssembly_instantiate wasm_module = Fulfilled linked ->
  ending (start_function linked) (linear_memory linked) = ([], Ends m0) ->
  ending (main linked) m0 = ([], Fails e m') ->
  run wasm_module w
  = (Rejected (HostError e),
     mkWorld
       (errors w
        ++ [mkSourceError RUNTIME ERROR
              (mkLocation (mkPosition 0 0) (mkPosition 0 0))
              (toString e) (toString e)])
       (calls w ++ [Call_instantiate; Call_main])).
Proof.
  intros Hlink Hstart Hend.
  rewrite (run_by_ending wasm_module linked w [] m0 Hlink Hstart).
  rewrite Hend. cbn [map]. now rewrite !app_nil_r.
Qed.

(** X16. The decoder runs inside the same [try] as the entry point:
    when the entry point returns and the decoder raises on the memory it
    leaves, [run] is rejected with what the decoder raised and reports it
    exactly like a failure of the engine, with one Runtime diagnostic at
    (0,0)-(0,0) whose texts are the description of the failure. *)
Theorem run_decoder_failure (wasm_module : WasmModule)
    (linked : Instance) (w : World) (m0 m' : Memory) (e : HostFailure) :
  WebAssembly_instantiate wasm_module = Fulfilled linked ->
  ending (start_function linked) (linear_memory linked) = ([], Ends m0) ->
  ending (main linked) m0 = ([], Ends m') ->
  read_js_result m' = Throw e ->
  run wasm_module w
  = (Rejected (HostError e),
     mkWorld
       (errors w
        ++ [mkSourceError RUNTIME ERROR
              (mkLocation (mkPosition 0 0) (mkPosition 0 0))
              (toString e) (toString e)])
       (calls w ++ [Call_instantiate; Call_main; Call_read_js_result])).
Proof.
  intros Hlink Hstart Hend He.
  rewrite (run_by_ending wasm_module linked w [] m0 Hlink Hstart).
  rewrite Hend. rewrite He. cbn [map]. now rewrite !app_nil_r.
Qed.


(** X18. [run] is fulfilled with [v] if and only if the module links,
    its start function returns, the entry point returns, each with every
    invocation of the fault import, if there was any, caught by the
    module itself and without a failure of the engine, and the decoder
    returns [v] on the memory left behind. *)
Theorem run_fulfilled_iff (wasm_module : WasmModule) (w : World)
    (v : JSValue) :
  fst (run wasm_module w) = Fulfilled v <->
  exists linked caught0 m0 caught m',
    WebAssembly_instantiate wasm_module = Fulfilled linked /\
    ending (start_function linked) (linear_memory linked)
    = (caught0, Ends m0) /\
    ending (main linked) m0 = (caught, Ends m') /\
    read_js_result m' = Normal v.
Proof.
  split.
  - rewrite run_not_instantiated.
    destruct (WebAssembly_instantiate wasm_module) as [linked | e] eqn:Hlink;
      [| discriminate].
    destruct (ending (start_function linked) (linear_memory linked))
      as [caught0 [m0 | c d f l col m0 | e m0]] eqn:Hstart;
      try discriminate.
    rewrite (run_by_ending wasm_module linked w caught0 m0 Hlink Hstart).
    cbv zeta.
    destruct (ending (main linked) m0)
      as [caught [m' | c d f l col m' | e m']] eqn:Hend; try discriminate.
    destruct (read_js_result m') as [v' | e] eqn:Hv; [| discriminate].
    cbn [fst]. intros [= <-].
    exists linked, caught0, m0, caught, m'. repeat split; assumption.
  - intros (linked & caught0 & m0 & caught & m' & Hlink & Hstart & Hend & Hv).
    rewrite (run_by_ending wasm_module linked w caught0 m0 Hlink Hstart).
    cbv zeta. now rewrite Hend, Hv.
Qed.

End RunFurther.

Lemma run_returns_decoded_value_witness :
  run (host := Scenario.host) Programs.returning_true Programs.used_world
  = (Fulfilled (VBoolean true),
     mkWorld [Scenario.parse_diagnostic]
       [Call_instantiate; Call_main;
        Call_instantiate; Call_main; Call_read_js_result]).
Proof.
  apply (run_returns_decoded_value (host := Scenario.host)
           Programs.returning_true Programs.returning_true
           Programs.used_world
           (memory_of (2^20) [])
           (store (store (memory_of (2^20) []) (2^20 - 12) x03)
              (2^20 - 8) x01)
           (VBoolean true)).
  - reflexivity.
  - reflexivity.
  - reflexivity.
  - vm_compute. reflexivity.
Defined.

Lemma run_unexpected_failure_witness :
  run (host := Scenario.host) Programs.trapping Scenario.empty_world
  = (Rejected (HostError (WasmRuntimeError (lit "unreachable"))),
     mkWorld
       [mkSourceError RUNTIME ERROR
          (mkLocation (mkPosition 0 0) (mkPosition 0 0))
          (lit "RuntimeError: unreachable") (lit "RuntimeError: unreachable")]
       [Call_instantiate; Call_main]).
Proof.
  exact (run_unexpected_failure (host := Scenario.host) Programs.trapping
           Programs.trapping Scenario.empty_world
           (WasmRuntimeError (lit "unreachable"))
           (memory_of (2^20) [])
           (store (memory_of (2^20) []) 100 x2a) eq_refl eq_refl eq_refl).
Defined.

Lemma run_decoder_failure_witness :
  run (host := Scenario.host) Programs.wild_string Scenario.empty_world
  = (Rejected (HostError RangeError),
     mkWorld
       [mkSourceError RUNTIME ERROR
          (mkLocation (mkPosition 0 0) (mkPosition 0 0))
          (lit "RangeError") (lit "RangeError")]
       [Call_instantiate; Call_main; Call_read_js_result]).
Proof.
  apply (run_decoder_failure (host := Scenario.host) Programs.wild_string
           Programs.wild_string Scenario.empty_world
           (memory_of (2^20) [])
           (store (store (store (store (store (memory_of (2^20) [])
              (2^20 - 12) x04) (2^20 - 8) xff) (2^20 - 7) xff)
              (2^20 - 6) xff) (2^20 - 5) xff)
           RangeError).
  - reflexivity.
  - reflexivity.
  - reflexivity.
  - vm_compute. reflexivity.
Defined.

(** A module that does not link, a start function that traps, and a
    store past the end of the memory. *)
Example run_other_failures :
  run (host := Programs.refusing) Programs.returning_true Scenario.empty_world
  = (Rejected (HostError (ExternalFailure (lit "LinkError: import missing"))),
     mkWorld [] [Call_instantiate]) /\
  run (host := Scenario.host) Programs.trapping_start Scenario.empty_world
  = (Rejected (HostError (WasmRuntimeError (lit "unreachable"))),
     mkWorld [] [Call_instantiate]) /\
  fst (run (host := Scenario.host) Programs.storing_outside
         Scenario.empty_world)
  = Rejected (HostError out_of_bounds).
Proof. vm_compute. repeat split. Qed.
